(** * qutip-qoc: the time grid and the JOPT objective

    A shallow embedding of [qutip_qoc/time.py] ([TimeInterval]) and of
    [qutip_qoc/jopt.py] ([abs], [abs_jvp], [JOPT]).

    - Python numbers handled by [TimeInterval] are rationals ([Q]): every
      Python [int] and every finite [float] is one. [np.linspace]
      computes in binary64 and its results are stored as the rationals
      they are.
    - Python exceptions are an explicit [Raise] outcome.
    - Properties of [TimeInterval] cache their result in the object: they
      are functions from the object to an outcome and the updated object. *)

From Stdlib Require Import QArith ZArith Floats.
From stdpp Require Import base option list strings gmap pretty.

Local Open Scope Z_scope.

(** ** Exceptions and outcomes *)

Inductive exn : Type :=
| ValueError (msg : string)
| TypeError
| IndexError
| UnboundLocalError (var : string)
| KeyError (key : string)
| SolverError.

Inductive result (A : Type) : Type :=
| Ok (a : A)
| Raise (e : exn).
Arguments Ok {A} a.
Arguments Raise {A} e.

#[global] Instance result_ret : MRet result := fun _ a => Ok a.
#[global] Instance result_bind : MBind result := fun _ _ f m =>
  match m with
  | Ok a => f a
  | Raise e => Raise e
  end.
#[global] Instance result_fmap : FMap result := fun _ _ f m =>
  match m with
  | Ok a => Ok (f a)
  | Raise e => Raise e
  end.

Definition is_Ok {A} (r : result A) : bool :=
  match r with Ok _ => true | Raise _ => false end.

(** A keyword argument that has a default: left out, or passed. *)
Inductive kwarg (A : Type) : Type :=
| Default
| Passed (a : A).
Arguments Default {A}.
Arguments Passed {A} a.

Definition kwarg_value {A} (dflt : A) (k : kwarg A) : A :=
  match k with Default => dflt | Passed a => a end.

(** ** binary64 numbers as rationals

    [of_Z] and [of_Q] round to the nearest binary64 number, ties to even
    ([of_Q] through a quotient of more than a thousand bits with a sticky
    bit); [to_Q] is the exact value of a finite number. A value that is
    already a binary64 number is left as it is by [round]. *)

Module binary64.

Definition of_Z (z : Z) : float :=
  SF2Prim (binary_normalize prec emax z 0 false).

Definition of_Q (q : Q) : float :=
  let n := Qnum q in
  let d := Z.pos (Qden q) in
  let s := Z.log2_up d + 1200 in
  let a := Z.abs n * 2 ^ s in
  let m := 2 * (a / d) + (if a mod d =? 0 then 0 else 1) in
  SF2Prim (binary_normalize prec emax (if n <? 0 then - m else m)
             (- (s + 1)) false).

(** The value of a finite number; infinities and NaN have none ([0]
    here). *)
Definition to_Q (f : float) : Q :=
  match Prim2SF f with
  | S754_finite s m e =>
      let z := if s then Z.neg m else Z.pos m in
      Qred (if 0 <=? e then inject_Z (z * 2 ^ e) else z # (2 ^ Z.to_pos (- e)))
  | _ => 0%Q
  end.

Definition round (q : Q) : Q := to_Q (of_Q q).

End binary64.

(** ** numpy.linspace(start, stop, num), endpoint included

    All arithmetic is binary64. [num < 0] raises; otherwise
    [y = arange(num) * step + start] with
    [step = (stop - start) / (num - 1)], computed as
    [arange(num) / (num - 1) * (stop - start)] when the step rounds to
    zero, and, when [num > 1], the last entry is overwritten by [stop].
    With [num - 1 <= 0] the step is undefined and
    [y = arange(num) * (stop - start) + start]. *)

Definition arange (num : Z) : list float :=
  (fun k : nat => binary64.of_Z (Z.of_nat k)) <$> seq 0 (Z.to_nat num).

Definition set_last (y : list Q) (v : Q) : list Q :=
  match y with
  | [] => []
  | _ => take (length y - 1) y ++ [v]
  end.

Definition linspace (start stop : Q) (num : Z) : result (list Q) :=
  if num <? 0 then
    Raise (ValueError
             ("Number of samples, " +:+ pretty num +:+ ", must be non-negative."))
  else
    let div := num - 1 in
    let start' := binary64.of_Q start in
    let delta := (binary64.of_Q stop - start')%float in
    let y := arange num in
    let y := if 0 <? div
             then let step := (delta / binary64.of_Z div)%float in
                  if (step =? 0)%float
                  then (fun v => v / binary64.of_Z div * delta)%float <$> y
                  else (fun v => v * step)%float <$> y
             else (fun v => v * delta)%float <$> y in
    let y := (fun v => v + start')%float <$> y in
    let y := binary64.to_Q <$> y in
    Ok (if 1 <? num then set_last y (binary64.round stop) else y).

(** ** time.py: TimeInterval *)

Module TimeInterval.

Record t : Type := mk {
  _tslots : option (list Q);
  _evo_time : option Q;
  _n_tslots : option Z
}.

(** [def __init__(self, tslots=None, evo_time=None, n_tslots=100)].
    [None] for [tslots] and [evo_time] is both "left out" and an
    explicit [None]; [n_tslots] left out is [100]. *)
Definition __init__ (tslots : option (list Q)) (evo_time : option Q)
    (n_tslots : kwarg (option Z)) : t :=
  {| _tslots := tslots;
     _evo_time := evo_time;
     _n_tslots := kwarg_value (Some 100) n_tslots |}.

(** Truth value of a Python number: nonzero. *)
Definition truthy (x : Q) : bool := negb (Qeq_bool x 0).

(** Truth value of [self._tslots], a Python list when given: [None] and
    the empty list are false. (A numpy array of two or more elements has
    no truth value; sequences given as arrays are outside this model.) *)
Definition truthy_seq (ts : option (list Q)) : bool :=
  match ts with
  | Some (_ :: _) => true
  | _ => false
  end.

(** [n_tslots] property. *)
Definition n_tslots (self : t) : result Z * t :=
  match _n_tslots self with
  | None =>
      if truthy_seq (_tslots self) then
        let n := Z.of_nat (length (default [] (_tslots self))) in
        (Ok n, {| _tslots := _tslots self;
                  _evo_time := _evo_time self;
                  _n_tslots := Some n |})
      else
        (Raise (ValueError
           "Either tslots or evo_time + n_tslots must be specified."), self)
  | Some n => (Ok n, self)
  end.

(** [tslots] property. *)
Definition tslots (self : t) : result (option (list Q)) * t :=
  match _tslots self with
  | None =>
      match n_tslots self with
      | (Raise e, self) => (Raise e, self)
      | (Ok n, self) =>
          match _evo_time self with
          | Some T =>
              if truthy T then
                match linspace 0 T n with
                | Raise e => (Raise e, self)
                | Ok grid =>
                    (Ok (Some grid),
                     {| _tslots := Some grid;
                        _evo_time := _evo_time self;
                        _n_tslots := _n_tslots self |})
                end
              else (Ok (_tslots self), self)
          | None => (Ok (_tslots self), self)
          end
      end
  | Some ts => (Ok (Some ts), self)
  end.

(** [__call__] returns [self.tslots]. *)
Definition __call__ (self : t) : result (option (list Q)) * t := tslots self.

(** [tslots[-1]]: [None] is not subscriptable, an empty list has no
    last element. *)
Definition last_item (ts : option (list Q)) : result Q :=
  match ts with
  | None => Raise TypeError
  | Some l =>
      match last l with
      | None => Raise IndexError
      | Some x => Ok x
      end
  end.

(** [evo_time] property. *)
Definition evo_time (self : t) : result Q * t :=
  match _evo_time self with
  | None =>
      match tslots self with
      | (Raise e, self) => (Raise e, self)
      | (Ok ts, self) =>
          match last_item ts with
          | Raise e => (Raise e, self)
          | Ok x =>
              (Ok x, {| _tslots := _tslots self;
                        _evo_time := Some x;
                        _n_tslots := _n_tslots self |})
          end
      end
  | Some T => (Ok T, self)
  end.

End TimeInterval.

(** ** jopt.py: the numeric backend

    [jax.numpy] scalars are kept abstract: any floating-point format with
    the operations the source uses. A Python number enters through
    [of_Q]; [hypot a b] is the magnitude of [a + b j]. No law is assumed
    of these operations. *)

Class Backend : Type := {
  scalar : Type;
  of_Q : Q -> scalar;
  radd : scalar -> scalar -> scalar;
  rsub : scalar -> scalar -> scalar;
  rmul : scalar -> scalar -> scalar;
  rdiv : scalar -> scalar -> scalar;
  ropp : scalar -> scalar;
  req : scalar -> scalar -> bool;
  hypot : scalar -> scalar -> scalar
}.

Declare Scope scalar_scope.
Delimit Scope scalar_scope with sc.
Infix "+" := radd : scalar_scope.
Infix "-" := rsub : scalar_scope.
Infix "*" := rmul : scalar_scope.
Infix "/" := rdiv : scalar_scope.
Notation "- x" := (ropp x) : scalar_scope.
Infix "==" := req (at level 70, no associativity) : scalar_scope.

Record complex {B : Backend} : Type := Cx { Re : scalar; Im : scalar }.
Arguments Cx {_} Re Im.

(** A real operand of a complex operation is promoted to [r + 0j]. *)
Definition of_real {B : Backend} (r : scalar) : complex := Cx r (of_Q 0).

Module jnp.
Section Ops.
Context {B : Backend}.
Local Open Scope scalar_scope.

Definition abs (x : complex) : scalar := hypot (Re x) (Im x).
Definition real (x : complex) : scalar := Re x.
Definition conj (x : complex) : complex := Cx (Re x) (- Im x).
Definition multiply (x y : complex) : complex :=
  Cx (Re x * Re y - Im x * Im y) (Re x * Im y + Im x * Re y).
(** [jnp.where(cond, a, b)]: both [a] and [b] have been computed;
    the result is one of them. *)
Definition where_ {A} (cond : bool) (a b : A) : A :=
  if cond then a else b.
End Ops.
End jnp.

(** ** jopt.py: abs with its custom derivative rule *)

(** A function decorated with [custom_jvp]: the function itself and the
    rule registered by [defjvp], if any. The rule maps a primal input and
    a tangent input to the primal output and the tangent output. *)
Record custom_jvp (A TA B TB : Type) : Type := {
  call : A -> B;
  jvp : option (A -> TA -> B * TB)
}.
Arguments call {A TA B TB} _ _.
Arguments jvp {A TA B TB} _.

Definition defjvp {A TA B TB} (f : custom_jvp A TA B TB)
    (rule : A -> TA -> B * TB) : custom_jvp A TA B TB :=
  {| call := call f; jvp := Some rule |}.

Section Abs.
Context {B : Backend}.
Local Open Scope scalar_scope.

(** [@custom_jvp def abs(x): return jnp.abs(x)], before a rule is
    registered. Calling [abs] inside [abs_jvp] evaluates this function. *)
Definition abs_decorated : custom_jvp complex complex scalar scalar :=
  {| call := fun x => jnp.abs x; jvp := None |}.

Definition abs_jvp (x t : complex) : scalar * scalar :=
  let abs_x := call abs_decorated x in
  let res :=
    jnp.where_ (abs_x == of_Q 0)
      (of_Q 0)
      (jnp.real (jnp.multiply (jnp.conj x) t) / abs_x) in
  (abs_x, res).

(** [abs.defjvp(abs_jvp)] *)
Definition abs : custom_jvp complex complex scalar scalar :=
  defjvp abs_decorated abs_jvp.
End Abs.

(** ** jopt.py: the collaborators from qutip *)

(** Values stored in the option dictionaries. *)
Inductive pyval : Type :=
| PyStr (s : string)
| PyNum (q : Q)
| PIDController (rtol atol : pyval)
| Dopri5.

(** [v == "..."] for a stored value [v]. *)
Definition py_eq_str (v : pyval) (s : string) : bool :=
  match v with
  | PyStr s' => String.eqb s' s
  | _ => false
  end.

(** [d.get(k, dflt)] and [d.setdefault(k, v)] *)
Definition dict_get (d : gmap string pyval) (k : string) (dflt : pyval) : pyval :=
  default dflt (d !! k).
Definition setdefault (d : gmap string pyval) (k : string) (v : pyval)
    : gmap string pyval :=
  match d !! k with
  | Some _ => d
  | None => <[k := v]> d
  end.

(** The operations of [Qobj] that the source calls. Those that check
    the dimensions of their operands can raise: [a - b], [a * b],
    [a.overlap(b)], [q.data.trace()], and [adjoint_same_dims q], which is
    [Qobj(q.data.adjoint(), dims=q.dims)]: the adjoint data under the
    dimensions of [q] itself, rejected when the two do not fit. *)
Class Qutip {B : Backend} : Type := {
  Qobj : Type;
  issuper : Qobj -> bool;
  to_jax : Qobj -> Qobj;
  qsub : Qobj -> Qobj -> result Qobj;
  adjoint_same_dims : Qobj -> result Qobj;
  qmul : Qobj -> Qobj -> result Qobj;
  trace : Qobj -> result complex;
  overlap : Qobj -> Qobj -> result complex;
  norm : Qobj -> scalar
}.

Section Generator.
Context {B : Backend} {Qt : Qutip}.

(** A control coefficient [f(t, p)]. *)
Definition coeff : Type := scalar -> list scalar -> complex.

(** [QobjEvo]: constant operators, operators weighted by a coefficient
    function, and the default value of the argument [p]. *)
Record QobjEvo : Type := {
  constants : list Qobj;
  elements : list (Qobj * coeff);
  args_p : option (list scalar)
}.

(** [QobjEvo(q)] *)
Definition QobjEvo_const (q : Qobj) : QobjEvo :=
  {| constants := [q]; elements := []; args_p := None |}.
(** [QobjEvo([hc, f], args={"p": p})] *)
Definition QobjEvo_elem (hc : Qobj) (f : coeff) (p : list scalar) : QobjEvo :=
  {| constants := []; elements := [(hc, f)]; args_p := Some p |}.
(** [H += evo] *)
Definition QobjEvo_add (a b : QobjEvo) : QobjEvo :=
  {| constants := constants a ++ constants b;
     elements := elements a ++ elements b;
     args_p := match args_p b with Some p => Some p | None => args_p a end |}.
(** [H.to("jax")] changes the storage of the operators only. *)
Definition QobjEvo_to_jax (a : QobjEvo) : QobjEvo :=
  {| constants := to_jax <$> constants a;
     elements := prod_map to_jax id <$> elements a;
     args_p := args_p a |}.

Inductive solver_kind : Type := SESolver | MESolver.

(** [qt.SESolver(H=..., options=...)], [qt.MESolver(H=..., options=...)] *)
Record Solver : Type := {
  kind : solver_kind;
  solver_H : QobjEvo;
  options : gmap string pyval
}.
End Generator.

(** The solvers of qutip. [solver_init_error kind H options] is the
    exception that [qt.SESolver(H=H, options=options)] or
    [qt.MESolver(...)] raises, if any, for instance for an option the
    integrator does not know; [run_final_state] is
    [solver.run(state0, [0.0, evo_time], args={"p": params}).final_state]. *)
Class Integrator {B : Backend} {Qt : Qutip} : Type := {
  solver_init_error : solver_kind -> QobjEvo -> gmap string pyval -> option exn;
  run_final_state : Solver -> Qobj -> scalar -> list scalar -> result Qobj
}.

(** ** jopt.py: the inputs of JOPT *)

(** One entry of [control_parameters]: [{"guess": ..., "bounds": ...}].
    [p_opt.get("guess")] is [None] when the key is missing. *)
Record p_opt : Type := {
  guess : option (list Q);
  bounds : option (list (Q * Q))
}.

(** [p[lower:upper]] for [0 <= lower <= upper]: out-of-range bounds are
    clipped to the length of [p]. *)
Definition slice {A} (p : list A) (lower upper : nat) : list A :=
  take (upper - lower)%nat (drop lower p).

Module Objective.
Section Def.
Context {B : Backend} {Qt : Qutip}.
(** [H = [Hd, [hc_1, f_1], ..., [hc_n, f_n]]]: [H[0]] is the first
    component, [H[1:]] the second. *)
Record t : Type := {
  initial : Qobj;
  H : Qobj * list (Qobj * coeff);
  target : Qobj
}.
End Def.
End Objective.

(** ** jopt.py: class JOPT *)

Module JOPT.
Section Def.
Context {B : Backend} {Qt : Qutip} {Ig : Integrator}.
Local Open Scope nat_scope.

Record t : Type := {
  Hd : Qobj;
  Hc_lst : list (Qobj * coeff);
  control_parameters : list (string * p_opt);
  guess_params : list scalar;
  H : QobjEvo;
  initial : Qobj;
  target : Qobj;
  evo_time : Q;
  var_t : bool;
  norm_fac : scalar;
  integrator_kwargs : gmap string pyval;
  rtol : pyval;
  atol : pyval;
  fid_type : pyval;
  solver : Solver
}.

(** [jax.jit(lambda t, p: control(t, p[lower:upper]))] *)
Definition helper (control : coeff) (lower upper : nat) : coeff :=
  fun t p => control t (slice p lower upper).

(** The loop of [_prepare_generator] over
    [zip(self.Hc_lst, self.control_parameters.values())], from the
    current [H] and [idx]. [len(None)] is a [TypeError]. *)
Fixpoint prepare_loop (guess_params : list scalar) (H : QobjEvo) (idx : nat)
    (pairs : list ((Qobj * coeff) * p_opt)) : result QobjEvo :=
  match pairs with
  | [] => Ok H
  | (Hc, p_opt) :: pairs =>
      let hc := Hc.1 in
      let ctrl := Hc.2 in
      match guess p_opt with
      | None => Raise TypeError
      | Some guess =>
          let M := length guess in
          let evo := QobjEvo_elem hc (helper ctrl idx (idx + M)) guess_params in
          prepare_loop guess_params (QobjEvo_add H evo) (idx + M) pairs
      end
  end.

Definition _prepare_generator (Hd : Qobj) (Hc_lst : list (Qobj * coeff))
    (control_parameters : list (string * p_opt))
    (guess_params : list scalar) : result QobjEvo :=
  H ← prepare_loop guess_params (QobjEvo_const Hd) 0
        (zip Hc_lst (control_parameters.*2));
  mret (QobjEvo_to_jax H).

(** [JOPT(objective, time_interval, time_options, control_parameters,
    alg_kwargs, guess_params, **integrator_kwargs)]. Reading
    [time_interval.evo_time] may update the time interval, which is
    returned next to the outcome. The solver is constructed last, from
    the generator and the completed options, and may reject them. *)
Definition __init__ (objective : Objective.t)
    (time_interval : TimeInterval.t)
    (time_options : gmap string pyval)
    (control_parameters : list (string * p_opt))
    (alg_kwargs : gmap string pyval)
    (guess_params : list scalar)
    (integrator_kwargs : gmap string pyval)
    : result t * TimeInterval.t :=
  let Hd := (Objective.H objective).1 in
  let Hc_lst := (Objective.H objective).2 in
  match _prepare_generator Hd Hc_lst control_parameters guess_params with
  | Raise e => (Raise e, time_interval)
  | Ok H =>
      let initial := to_jax (Objective.initial objective) in
      let target := to_jax (Objective.target objective) in
      match TimeInterval.evo_time time_interval with
      | (Raise e, time_interval) => (Raise e, time_interval)
      | (Ok evo_time, time_interval) =>
          let var_t :=
            match time_options !! "guess" with
            | Some _ => true
            | None => false
            end in
          let norm_fac := (of_Q 1 / norm target)%sc in
          let integrator_kwargs :=
            <["method" := PyStr "diffrax"]> integrator_kwargs in
          let rtol := dict_get integrator_kwargs "rtol" (PyNum (1 # 100000)) in
          let atol := dict_get integrator_kwargs "atol" (PyNum (1 # 100000)) in
          let integrator_kwargs :=
            setdefault integrator_kwargs "stepsize_controller"
              (PIDController rtol atol) in
          let integrator_kwargs :=
            setdefault integrator_kwargs "solver" Dopri5 in
          let fid_type :=
            if issuper Hd
            then dict_get alg_kwargs "fid_type" (PyStr "TRACEDIFF")
            else dict_get alg_kwargs "fid_type" (PyStr "PSU") in
          let solver :=
            {| kind := if issuper Hd then MESolver else SESolver;
               solver_H := H;
               options := integrator_kwargs |} in
          match solver_init_error (kind solver) H integrator_kwargs with
          | Some e => (Raise e, time_interval)
          | None =>
              (Ok {| Hd := Hd; Hc_lst := Hc_lst;
                     control_parameters := control_parameters;
                     guess_params := guess_params;
                     H := H;
                     initial := initial; target := target;
                     evo_time := evo_time; var_t := var_t;
                     norm_fac := norm_fac;
                     integrator_kwargs := integrator_kwargs;
                     rtol := rtol; atol := atol;
                     fid_type := fid_type;
                     solver := solver |},
               time_interval)
          end
      end
  end.

(** [self.evo_time if self.var_t is False else params[-1]] *)
Definition end_time (self : t) (params : list scalar) : result scalar :=
  if negb (var_t self) then Ok (of_Q (evo_time self))
  else match last params with
       | Some x => Ok x
       | None => Raise IndexError
       end.

(** The value bound to [infid] from the final state [X]; leaving both
    [if] and [elif] without binding it makes [return infid] fail. An
    operation on [Qobj] that raises ends the call. *)
Definition infid_of (self : t) (X : Qobj) : result scalar :=
  if py_eq_str (fid_type self) "TRACEDIFF" then
    diff ← qsub X (target self);
    diff_dag ← adjoint_same_dims diff;
    prod ← qmul diff_dag diff;
    tr ← trace prod;
    let g := jnp.multiply (of_real (of_Q 1 / of_Q 2)%sc) tr in
    Ok (jnp.real (jnp.multiply (of_real (norm_fac self)) g))
  else
    ov ← overlap (target self) X;
    let g := jnp.multiply (of_real (norm_fac self)) ov in
    if py_eq_str (fid_type self) "PSU" then
      Ok (of_Q 1 - call abs g)%sc
    else if py_eq_str (fid_type self) "SU" then
      Ok (of_Q 1 - jnp.real g)%sc
    else Raise (UnboundLocalError "infid").

Definition _infid (self : t) (params : list scalar) : result scalar :=
  evo_time ← end_time self params;
  X ← run_final_state (solver self) (initial self) evo_time params;
  infid_of self X.

(** [self.infidelity = jax.jit(self._infid)], taken to compute what
    [_infid] computes; the properties of the objective below are stated
    on [_infid]. [self.gradient], the transformation of [infidelity] by
    [jax.grad], has no counterpart here. *)
Definition infidelity (self : t) (params : list scalar) : result scalar :=
  _infid self params.
End Def.
End JOPT.

(** ** An executable instance: binary64 scalars, dense matrices

    The statements below hold for every [Backend], [Qutip] and
    [Integrator]. This instance lets the definitions run: IEEE binary64
    numbers, operators as lists of rows, and a single explicit Euler step
    in place of the adaptive integrator. *)

Module Float64.
Definition of_Z (z : Z) : float :=
  if z <? 0 then PrimFloat.opp (PrimFloat.of_uint63 (Uint63.of_Z (- z)))
  else PrimFloat.of_uint63 (Uint63.of_Z z).

#[global] Instance backend : Backend := {|
  scalar := float;
  of_Q := fun q => PrimFloat.div (of_Z (Qnum q)) (of_Z (Z.pos (Qden q)));
  radd := PrimFloat.add;
  rsub := PrimFloat.sub;
  rmul := PrimFloat.mul;
  rdiv := PrimFloat.div;
  ropp := PrimFloat.opp;
  req := PrimFloat.eqb;
  hypot := fun a b => PrimFloat.sqrt (PrimFloat.add (PrimFloat.mul a a) (PrimFloat.mul b b))
|}.

Definition cx (re im : float) : @complex backend := Cx re im.

Definition finite (x : float) : bool :=
  negb (PrimFloat.is_nan x) && negb (PrimFloat.is_infinity x).
End Float64.

Module Dense.
Section Def.
Context {B : Backend}.
Local Open Scope scalar_scope.

Definition c0 : complex := Cx (of_Q 0) (of_Q 0).
Definition cadd (x y : complex) : complex := Cx (Re x + Re y) (Im x + Im y).
Definition csub (x y : complex) : complex := Cx (Re x - Re y) (Im x - Im y).
Definition csum (l : list complex) : complex := foldr cadd c0 l.

Record qobj : Type := Q_ { data : list (list complex); super : bool }.

Fixpoint transpose {A} (m : list (list A)) : list (list A) :=
  match m with
  | [] => []
  | [r] => (fun x => [x]) <$> r
  | r :: rs => zip_with cons r (transpose rs)
  end.

Definition dot (r c : list complex) : complex :=
  csum (zip_with jnp.multiply r c).
Definition matmul (a b : list (list complex)) : list (list complex) :=
  (fun r => dot r <$> transpose b) <$> a.
Definition diagonal (m : list (list complex)) : list complex :=
  imap (fun i r => default c0 (r !! i)) m.

Definition sub (a b : qobj) : qobj :=
  Q_ (zip_with (zip_with csub) (data a) (data b)) (super a).
Definition dag (a : qobj) : qobj :=
  Q_ (transpose (map (map jnp.conj) (data a))) (super a).
Definition mul (a b : qobj) : qobj := Q_ (matmul (data a) (data b)) (super a).
Definition tr (a : qobj) : complex := csum (diagonal (data a)).
Definition inner (a b : qobj) : complex :=
  csum (zip_with (fun x y => jnp.multiply (jnp.conj x) y)
          (concat (data a)) (concat (data b))).
Definition l2 (a : qobj) : scalar :=
  foldr (fun x acc => hypot (hypot (Re x) (Im x)) acc) (of_Q 0)
    (concat (data a)).

(** Rows and columns; the dimensions of an operand are its shape. *)
Definition shape (a : qobj) : nat * nat :=
  (length (data a), length (default [] (head (data a)))).
Definition same_shape (a b : qobj) : bool :=
  bool_decide (shape a = shape b).
Definition square (a : qobj) : bool :=
  bool_decide ((shape a).1 = (shape a).2).

Definition checked_sub (a b : qobj) : result qobj :=
  if same_shape a b then Ok (sub a b) else Raise TypeError.
(** The adjoint has the transposed shape; under the dimensions of [a]
    it is accepted for a square [a] only. *)
Definition dag_same_dims (a : qobj) : result qobj :=
  if square a then Ok (dag a)
  else Raise (ValueError "Provided dimensions do not match the data").
Definition checked_mul (a b : qobj) : result qobj :=
  if bool_decide ((shape a).2 = (shape b).1) then Ok (mul a b)
  else Raise TypeError.
Definition checked_tr (a : qobj) : result complex :=
  if square a then Ok (tr a) else Raise (ValueError "matrix is not square").
Definition checked_inner (a b : qobj) : result complex :=
  if same_shape a b then Ok (inner a b) else Raise TypeError.

#[global] Instance qutip : Qutip := {|
  Qobj := qobj;
  issuper := super;
  to_jax := id;
  qsub := checked_sub;
  adjoint_same_dims := dag_same_dims;
  qmul := checked_mul;
  trace := checked_tr;
  overlap := checked_inner;
  norm := l2
|}.

(** The generator applied to a state at time [t]:
    [sum_c c psi + sum_k f_k(t, p) hc_k psi]. *)
Definition scale (z : complex) (a : qobj) : qobj :=
  Q_ (map (map (jnp.multiply z)) (data a)) (super a).
Definition add (a b : qobj) : qobj :=
  Q_ (zip_with (zip_with cadd) (data a) (data b)) (super a).
Definition apply (G : QobjEvo) (t : scalar) (p : list scalar) (psi : qobj) : qobj :=
  let zero := scale c0 psi in
  let const := foldr (fun c acc => add (mul c psi) acc) zero (constants G) in
  foldr (fun e acc => add (scale (e.2 t p) (mul e.1 psi)) acc) const (elements G).

(** One explicit Euler step over [[0, T]]: [psi + T * (-i G psi)] for
    the Schroedinger equation, [rho + T * (L rho)] for a
    superoperator generator. *)
Definition euler (s : Solver) (psi : qobj) (T : scalar) (p : list scalar)
    : result qobj :=
  let G := apply (solver_H s) (of_Q 0) p psi in
  let rhs := match kind s with
             | SESolver => scale (Cx (of_Q 0) (- of_Q 1)) G
             | MESolver => G
             end in
  Ok (add psi (scale (of_real T) rhs)).

(** The options this stand-in accepts; any other key is rejected, as an
    integrator rejects an option it does not know. *)
Definition known_options : list string :=
  ["method"; "solver"; "stepsize_controller"; "dt0"; "max_steps";
   "progress_bar"; "progress_kwargs"; "store_final_state"; "store_states";
   "normalize_output"].
Definition unknown_option (options : gmap string pyval) : option exn :=
  KeyError <$> head (filter (fun k => k ∉ known_options) (map_to_list options).*1).

#[global] Instance integrator : Integrator := {|
  solver_init_error := fun _ _ options => unknown_option options;
  run_final_state := euler
|}.
End Def.
End Dense.

(** A two-level system: drift sigma_z, controls sigma_x and sigma_y,
    from the ground state to the excited state. *)
Module Example2.
Import Float64 Dense.
Local Open Scope scalar_scope.

Definition cx (a b : Q) : complex := Cx (of_Q a) (of_Q b).
Definition sigmax : Qobj := Q_ [[cx 0 0; cx 1 0]; [cx 1 0; cx 0 0]] false.
Definition sigmay : Qobj := Q_ [[cx 0 0; cx 0 (-1)]; [cx 0 1; cx 0 0]] false.
Definition sigmaz : Qobj := Q_ [[cx 1 0; cx 0 0]; [cx 0 0; cx (-1) 0]] false.
Definition basis0 : Qobj := Q_ [[cx 1 0]; [cx 0 0]] false.
Definition basis1 : Qobj := Q_ [[cx 0 0]; [cx 1 0]] false.

(** A control [p[0] * (p[1] * t + p[2])]. *)
Definition ramp : coeff := fun t p =>
  let p0 := default (of_Q 0) (p !! 0%nat) in
  let p1 := default (of_Q 0) (p !! 1%nat) in
  let p2 := default (of_Q 0) (p !! 2%nat) in
  of_real (p0 * (p1 * t + p2)).

Definition objective : Objective.t :=
  {| Objective.initial := basis0;
     Objective.H := (sigmaz, [(sigmax, ramp); (sigmay, ramp)]);
     Objective.target := basis1 |}.

(** The same system as a gate: from the identity to sigma_x. *)
Definition qeye : Qobj := Q_ [[cx 1 0; cx 0 0]; [cx 0 0; cx 1 0]] false.
Definition gate_objective : Objective.t :=
  {| Objective.initial := qeye;
     Objective.H := (sigmaz, [(sigmax, ramp); (sigmay, ramp)]);
     Objective.target := sigmax |}.

Definition p_guess : list Q := [1; 1; 0]%Q.
Definition p_bounds : list (Q * Q) := [(-1, 1); (-1, 1); (-3, 3)]%Q.
Definition pulse_options : list (string * p_opt) :=
  [("p", {| guess := Some p_guess; bounds := Some p_bounds |});
   ("q", {| guess := Some p_guess; bounds := Some p_bounds |})].

(** One entry only, with one pair of bounds for three guess values. *)
Definition short_options : list (string * p_opt) :=
  [("p", {| guess := Some p_guess; bounds := Some [(-1, 1)%Q] |})].

Definition time_interval : TimeInterval.t :=
  TimeInterval.__init__ None (Some (1 # 4)%Q) Default.

Definition ones (n : nat) : list scalar := replicate n (of_Q 1).

Definition build (alg_kwargs : gmap string pyval) : result JOPT.t :=
  (JOPT.__init__ objective time_interval ∅ pulse_options alg_kwargs (ones 6) ∅).1.
End Example2.

(** ** Predicates used in the statements *)




(** The number of parameters of one entry of [control_parameters], and
    the offset of the [k]-th control: the guess lengths before it, summed. *)
Definition guess_len (c : p_opt) : nat := length (default [] (guess c)).
Definition offset (specs : list p_opt) (k : nat) : nat :=
  sum_list (guess_len <$> take k specs).

(** [i] lies in the slice of the [k]-th control. *)
Definition in_slice (specs : list p_opt) (k i : nat) : Prop :=
  match specs !! k with
  | Some c => (offset specs k <= i < offset specs k + guess_len c)%nat
  | None => False
  end.

(** [s'] still holds every input that [s] holds: reading a property
    may fill a field that is [None], not replace one that is set. *)
Definition keeps_inputs (s s' : TimeInterval.t) : Prop :=
  (is_Some (TimeInterval._tslots s) ->
     TimeInterval._tslots s' = TimeInterval._tslots s) /\
  (is_Some (TimeInterval._evo_time s) ->
     TimeInterval._evo_time s' = TimeInterval._evo_time s) /\
  (is_Some (TimeInterval._n_tslots s) ->
     TimeInterval._n_tslots s' = TimeInterval._n_tslots s).

(** The slices of the controls, in order, cut from a flat vector. *)
Definition control_slices {A} (specs : list p_opt) (params : list A)
    : list (list A) :=
  imap (fun k c => slice params (offset specs k) (offset specs k + guess_len c))
    specs.

(** The number of entries of the flat vector that belong to controls. *)
Definition total_params (specs : list p_opt) : nat :=
  offset specs (length specs).

(** * Properties of the time grid *)

Section Linspace.






Lemma set_last_lookup_last (y : list Q) (v : Q) (k : nat) :
  S k = length y -> set_last y v !! k = Some v.
Proof.
  destruct y as [|a y]; [done|]. intros Hk. unfold set_last.
  rewrite lookup_app_r by (rewrite length_take; simpl in *; lia).
  rewrite length_take.
  match goal with |- [v] !! ?i = _ => replace i with 0%nat by (simpl in *; lia) end.
  done.
Qed.



End Linspace.

Section TimeGrid.
Import TimeInterval.
Local Open Scope Q_scope.


Lemma truthy_zero (T : Q) : T == 0 -> truthy T = false.
Proof.
  intros HT. unfold truthy. apply Qeq_bool_iff in HT. by rewrite HT.
Qed.

(** With a count that is not [None], [n_tslots] returns it and leaves
    the object as it is, whatever [tslots] holds. *)
Lemma n_tslots_stored (ts : option (list Q)) (T : option Q) (n : Z) :
  n_tslots (mk ts T (Some n)) = (Ok n, mk ts T (Some n)).
Proof. reflexivity. Qed.

(** The branch of [n_tslots] that measures the sequence is taken when
    the count is an explicit [None]. *)
Lemma n_tslots_derived (x : Q) (l : list Q) (T : option Q) :
  (n_tslots (__init__ (Some (x :: l)) T (Passed None))).1
    = Ok (Z.of_nat (length (x :: l))).
Proof. reflexivity. Qed.

(** With neither a sequence nor a count, [n_tslots] and [tslots] raise. *)
Lemma n_tslots_unresolvable (T : option Q) :
  exists msg,
    (n_tslots (__init__ None T (Passed None))).1 = Raise (ValueError msg) /\
    (tslots (__init__ None T (Passed None))).1 = Raise (ValueError msg).
Proof. eexists. split; reflexivity. Qed.




(** C6 at the failing input [TimeInterval(tslots=[0, 1/2, 2])]:
    [evo_time] is the last element [2], but [n_tslots] is the default
    [100], not the length [3]. *)
Theorem explicit_tslots_n_tslots_default :
  let ti := __init__ (Some [0; 1 # 2; 2]) None Default in
  (evo_time ti).1 = Ok 2 /\
  (n_tslots ti).1 = Ok 100%Z /\
  length [0; 1 # 2; 2] = 3%nat.
Proof. repeat split. Qed.

(** The same for every explicit sequence. *)
Lemma explicit_tslots_attributes (x : Q) (l : list Q) :
  let ti := __init__ (Some (x :: l)) None Default in
  (exists v, last (x :: l) = Some v /\ (evo_time ti).1 = Ok v) /\
  (n_tslots ti).1 = Ok 100%Z.
Proof.
  split; [|reflexivity]. unfold evo_time, tslots, last_item. simpl.
  destruct (last (x :: l)) as [v|] eqn:E.
  - by exists v.
  - by apply last_None in E.
Qed.

(** C9: with both an explicit sequence and a total time, nothing is
    raised, [tslots] is the sequence and [evo_time] the supplied value,
    and neither read changes the object; the two need not agree. *)
Theorem explicit_tslots_and_evo_time (ts : list Q) (T : Q) (n : kwarg (option Z)) :
  let ti := __init__ (Some ts) (Some T) n in
  tslots ti = (Ok (Some ts), ti) /\
  evo_time ti = (Ok T, ti) /\
  exists (ts' : list Q) (T' x : Q),
    last ts' = Some x /\ ~ x == T' /\
    (tslots (__init__ (Some ts') (Some T') n)).1 = Ok (Some ts') /\
    (evo_time (__init__ (Some ts') (Some T') n)).1 = Ok T'.
Proof.
  repeat split. exists [0; 1], 5, 1. repeat split. discriminate.
Qed.

(** C10: with a zero total time and no explicit sequence, [tslots] is
    [None] and nothing is raised, for the default slot count and for
    every given count. *)
Theorem tslots_none_for_zero_evo_time (T : Q) (n : Z) :
  T == 0 ->
  tslots (__init__ None (Some T) Default)
    = (Ok None, __init__ None (Some T) Default) /\
  tslots (__init__ None (Some T) (Passed (Some n)))
    = (Ok None, __init__ None (Some T) (Passed (Some n))).
Proof.
  intros HT. unfold tslots, __init__. simpl.
  rewrite (truthy_zero T HT). done.
Qed.

Lemma tslots_none_for_zero_evo_time_witness :
  tslots (__init__ None (Some 0) Default)
    = (Ok None, __init__ None (Some 0) Default) /\
  tslots (__init__ None (Some 0) (Passed (Some 7%Z)))
    = (Ok None, __init__ None (Some 0) (Passed (Some 7%Z))).
Proof.
  apply (tslots_none_for_zero_evo_time 0 7). reflexivity.
Defined.
End TimeGrid.

(** * Properties of the magnitude and its derivative rule *)

Section AbsRule.
Context {B : Backend}.
Local Open Scope scalar_scope.

Lemma abs_call (x : complex) : call abs x = jnp.abs x.
Proof. reflexivity. Qed.

Lemma abs_jvp_value (x t : complex) : (abs_jvp x t).1 = jnp.abs x.
Proof. reflexivity. Qed.

Lemma abs_jvp_tangent_zero (x t : complex) :
  (jnp.abs x == of_Q 0) = true -> (abs_jvp x t).2 = of_Q 0.
Proof. intros Hz. unfold abs_jvp. simpl. by rewrite Hz. Qed.

Lemma abs_jvp_tangent_nonzero (x t : complex) :
  (jnp.abs x == of_Q 0) = false ->
  (abs_jvp x t).2 = jnp.real (jnp.multiply (jnp.conj x) t) / jnp.abs x.
Proof. intros Hz. unfold abs_jvp. simpl. by rewrite Hz. Qed.
End AbsRule.

(** In binary64 the quotient of the rule is not a number at [x = 0]; the
    rule returns [0] all the same, whatever the tangent. *)
Lemma abs_jvp_zero_float64 (t : @complex Float64.backend) :
  let x := Float64.cx 0 0 in
  abs_jvp x t = (0%float, 0%float) /\
  PrimFloat.is_nan
    (jnp.real (jnp.multiply (jnp.conj x) (Float64.cx 1 2)) / jnp.abs x)%sc = true.
Proof. split; reflexivity. Qed.

(** C2: [abs] returns the magnitude [|x|]; the rule registered for it
    returns the value [|x|] and the tangent [0] when [|x| == 0],
    [Re(conj(x) * t) / |x|] otherwise; at [x = 0] in binary64 the
    tangent is [0], a finite number, for every tangent direction. *)
Theorem abs_jvp_rule :
  (forall (B : Backend) (x t : complex),
     call abs x = jnp.abs x /\
     jvp abs = Some abs_jvp /\
     (abs_jvp x t).1 = jnp.abs x /\
     ((jnp.abs x == of_Q 0)%sc = true -> (abs_jvp x t).2 = of_Q 0) /\
     ((jnp.abs x == of_Q 0)%sc = false ->
        (abs_jvp x t).2
        = (jnp.real (jnp.multiply (jnp.conj x) t) / jnp.abs x)%sc)) /\
  (forall t : @complex Float64.backend,
     (abs_jvp (Float64.cx 0 0) t).2 = 0%float /\
     Float64.finite (abs_jvp (Float64.cx 0 0) t).2 = true).
Proof.
  split.
  - intros B x t. split; [reflexivity|]. split; [reflexivity|].
    split; [reflexivity|]. split.
    + apply abs_jvp_tangent_zero.
    + apply abs_jvp_tangent_nonzero.
  - intros t. split; reflexivity.
Qed.

Lemma abs_jvp_rule_witness :
  (abs_jvp (Float64.cx 0 0) (Float64.cx 1 2)).2
    = 0%float /\
  (abs_jvp (Float64.cx 3 4) (Float64.cx 1 2)).2
    = (11 / 5)%float.
Proof.
  split.
  - apply (proj1 abs_jvp_rule Float64.backend). reflexivity.
  - apply (proj1 abs_jvp_rule Float64.backend
             (Float64.cx 3 4) (Float64.cx 1 2)). reflexivity.
Defined.

(** * Properties of the JOPT objective *)

Section Infidelity.
Context {B : Backend} {Qt : Qutip} {Ig : Integrator}.
Local Open Scope scalar_scope.

(** What [__init__] stores, whenever it succeeds. *)
Lemma init_fields (objective : Objective.t) (time_interval : TimeInterval.t)
    (time_options : gmap string pyval)
    (control_parameters : list (string * p_opt))
    (alg_kwargs : gmap string pyval) (guess_params : list scalar)
    (integrator_kwargs : gmap string pyval)
    (self : JOPT.t) (time_interval' : TimeInterval.t) :
  JOPT.__init__ objective time_interval time_options control_parameters
    alg_kwargs guess_params integrator_kwargs = (Ok self, time_interval') ->
  JOPT.target self = to_jax (Objective.target objective) /\
  JOPT.initial self = to_jax (Objective.initial objective) /\
  JOPT.norm_fac self = of_Q 1 / norm (to_jax (Objective.target objective)) /\
  JOPT.fid_type self
    = dict_get alg_kwargs "fid_type"
        (PyStr (if issuper (Objective.H objective).1
                then "TRACEDIFF" else "PSU")) /\
  kind (JOPT.solver self)
    = (if issuper (Objective.H objective).1 then MESolver else SESolver) /\
  JOPT._prepare_generator (Objective.H objective).1 (Objective.H objective).2
    control_parameters guess_params = Ok (JOPT.H self) /\
  solver_H (JOPT.solver self) = JOPT.H self.
Proof.
  unfold JOPT.__init__. intros Hinit.
  destruct (JOPT._prepare_generator _ _ _ _) as [H0|e]; [|discriminate].
  destruct (TimeInterval.evo_time time_interval) as [[T|e] ti]; [|discriminate].
  destruct (solver_init_error _ _ _); [discriminate|].
  injection Hinit as <- _. simpl.
  repeat split; by destruct (issuper _).
Qed.

(** The three formulas, for an object with a given [fid_type]. *)
Lemma infid_of_TRACEDIFF (self : JOPT.t) (X D Dd P : Qobj) (tr : complex) :
  JOPT.fid_type self = PyStr "TRACEDIFF" ->
  qsub X (JOPT.target self) = Ok D ->
  adjoint_same_dims D = Ok Dd ->
  qmul Dd D = Ok P ->
  trace P = Ok tr ->
  JOPT.infid_of self X
  = Ok (jnp.real
          (jnp.multiply (of_real (JOPT.norm_fac self))
             (jnp.multiply (of_real (of_Q 1 / of_Q 2)) tr))).
Proof.
  intros Hk HD HDd HP Htr. unfold JOPT.infid_of.
  rewrite Hk. simpl. rewrite HD. simpl. rewrite HDd. simpl. rewrite HP. simpl.
  by rewrite Htr.
Qed.

Lemma infid_of_TRACEDIFF_rejected (self : JOPT.t) (X D : Qobj) (e : exn) :
  JOPT.fid_type self = PyStr "TRACEDIFF" ->
  qsub X (JOPT.target self) = Ok D ->
  adjoint_same_dims D = Raise e ->
  JOPT.infid_of self X = Raise e.
Proof.
  intros Hk HD HDd. unfold JOPT.infid_of.
  rewrite Hk. simpl. rewrite HD. simpl. by rewrite HDd.
Qed.

Lemma infid_of_PSU (self : JOPT.t) (X : Qobj) (g : complex) :
  JOPT.fid_type self = PyStr "PSU" ->
  overlap (JOPT.target self) X = Ok g ->
  JOPT.infid_of self X
  = Ok (of_Q 1 - call abs (jnp.multiply (of_real (JOPT.norm_fac self)) g)).
Proof. intros Hk Hg. unfold JOPT.infid_of. rewrite Hk. simpl. by rewrite Hg. Qed.

Lemma infid_of_SU (self : JOPT.t) (X : Qobj) (g : complex) :
  JOPT.fid_type self = PyStr "SU" ->
  overlap (JOPT.target self) X = Ok g ->
  JOPT.infid_of self X
  = Ok (of_Q 1 - jnp.real (jnp.multiply (of_real (JOPT.norm_fac self)) g)).
Proof. intros Hk Hg. unfold JOPT.infid_of. rewrite Hk. simpl. by rewrite Hg. Qed.

Lemma infid_run (self : JOPT.t) (params : list scalar) (T : scalar) (X : Qobj) :
  JOPT.end_time self params = Ok T ->
  run_final_state (JOPT.solver self) (JOPT.initial self) T params = Ok X ->
  JOPT._infid self params = JOPT.infid_of self X.
Proof.
  intros HT HX. unfold JOPT._infid.
  rewrite HT. simpl. rewrite HX. reflexivity.
Qed.

(** C3, as amended: for an object built by [__init__] and a parameter
    vector for which the solver returns the final state [X], with
    [normalization = 1 / norm(target)] fixed at setup. TRACEDIFF gives
    [Re(normalization * (1/2 * trace(D^dag D)))], [D = X - target],
    whenever [D^dag] is accepted under the dimensions of [D] and the
    difference, product and trace are defined; when [D^dag] is rejected
    under these dimensions the call raises that error. PSU gives
    [1 - |normalization * overlap(target, X)|], the magnitude being the
    function that carries the custom rule, and SU gives
    [1 - Re(normalization * overlap(target, X))], whenever the overlap is
    defined. *)
Theorem infidelity_by_fidelity_kind
    (objective : Objective.t) (time_interval : TimeInterval.t)
    (time_options : gmap string pyval)
    (control_parameters : list (string * p_opt))
    (alg_kwargs : gmap string pyval) (guess_params : list scalar)
    (integrator_kwargs : gmap string pyval)
    (self : JOPT.t) (time_interval' : TimeInterval.t)
    (params : list scalar) (T : scalar) (X : Qobj) :
  JOPT.__init__ objective time_interval time_options control_parameters
    alg_kwargs guess_params integrator_kwargs = (Ok self, time_interval') ->
  JOPT.end_time self params = Ok T ->
  run_final_state (JOPT.solver self) (JOPT.initial self) T params = Ok X ->
  let target := to_jax (Objective.target objective) in
  let normalization := of_real (of_Q 1 / norm target) in
  (JOPT.fid_type self = PyStr "TRACEDIFF" ->
     (forall (D Dd P : Qobj) (tr : complex),
        qsub X target = Ok D -> adjoint_same_dims D = Ok Dd ->
        qmul Dd D = Ok P -> trace P = Ok tr ->
        JOPT._infid self params
        = Ok (jnp.real
                (jnp.multiply normalization
                   (jnp.multiply (of_real (of_Q 1 / of_Q 2)) tr)))) /\
     (forall (D : Qobj) (e : exn),
        qsub X target = Ok D -> adjoint_same_dims D = Raise e ->
        JOPT._infid self params = Raise e)) /\
  (JOPT.fid_type self = PyStr "PSU" ->
     forall g : complex, overlap target X = Ok g ->
       JOPT._infid self params
       = Ok (of_Q 1 - call abs (jnp.multiply normalization g))
       /\ jvp abs = Some abs_jvp) /\
  (JOPT.fid_type self = PyStr "SU" ->
     forall g : complex, overlap target X = Ok g ->
       JOPT._infid self params
       = Ok (of_Q 1 - jnp.real (jnp.multiply normalization g))).
Proof.
  intros Hinit HT HX target normalization.
  destruct (init_fields _ _ _ _ _ _ _ _ _ Hinit) as (Htg & _ & Hnf & _).
  rewrite (infid_run self params T X HT HX).
  subst target normalization. rewrite <- Htg in Hnf |- *. rewrite <- Hnf.
  split; [|split].
  - intros Hk. split.
    + intros D Dd P tr. by apply infid_of_TRACEDIFF.
    + intros D e. by apply infid_of_TRACEDIFF_rejected.
  - intros Hk g Hg. split; [by apply infid_of_PSU | reflexivity].
  - intros Hk g Hg. by apply infid_of_SU.
Qed.
End Infidelity.

Lemma infidelity_by_fidelity_kind_witness :
  exists self : JOPT.t,
    (JOPT.__init__ Example2.gate_objective Example2.time_interval ∅
       Example2.pulse_options {[ "fid_type" := PyStr "TRACEDIFF" ]}
       (Example2.ones 6) ∅).1 = Ok self /\
    JOPT._infid self (Example2.ones 6) = Ok 0x1.8bfad401b2967p+0%float.
Proof.
  eexists. split; [reflexivity|].
  edestruct (infidelity_by_fidelity_kind Example2.gate_objective
               Example2.time_interval ∅ Example2.pulse_options
               {[ "fid_type" := PyStr "TRACEDIFF" ]} (Example2.ones 6) ∅)
    as (HTD & _ & _); [reflexivity | reflexivity | reflexivity |].
  exact (proj1 (HTD eq_refl) _ _ _ _ eq_refl eq_refl eq_refl eq_refl).
Defined.

(** The claim C3 as stated fails: for the state transfer with the kind
    TRACEDIFF the solver returns a final state, a ket, and the call
    raises instead of giving the trace-difference value, because the
    adjoint of the difference is rejected under the dimensions of the
    difference. *)
Lemma tracediff_rejects_ket :
  exists (self : JOPT.t) (X : Qobj) (msg : string),
    Example2.build {[ "fid_type" := PyStr "TRACEDIFF" ]} = Ok self /\
    JOPT.end_time self (Example2.ones 6) = Ok 0.25%float /\
    run_final_state (JOPT.solver self) (JOPT.initial self) 0.25%float
      (Example2.ones 6) = Ok X /\
    JOPT._infid self (Example2.ones 6) = Raise (ValueError msg).
Proof.
  eexists _, _, _. split; [reflexivity|]. split; [reflexivity|].
  split; reflexivity.
Qed.

(** * Properties of the generator builder *)

Section Slices.
Context {A : Type}.
Implicit Types p : list A.

Lemma slice_lookup p (lower upper i : nat) :
  slice p lower upper !! i
  = if decide (i < upper - lower)%nat then p !! (lower + i)%nat else None.
Proof.
  unfold slice. case_decide.
  - by rewrite lookup_take_lt, lookup_drop.
  - apply lookup_take_ge. lia.
Qed.

(** A slice is determined by the entries inside its bounds. *)
Lemma slice_ext p p' (lower upper : nat) :
  (forall i, (lower <= i < upper)%nat -> p !! i = p' !! i) ->
  slice p lower upper = slice p' lower upper.
Proof.
  intros Hagree. apply list_eq. intros i. rewrite !slice_lookup.
  case_decide; [|done]. apply Hagree. lia.
Qed.

Lemma slice_length p (lower upper : nat) :
  (lower <= upper <= length p)%nat -> length (slice p lower upper) = (upper - lower)%nat.
Proof. intros Hb. unfold slice. rewrite length_take, length_drop. lia. Qed.
End Slices.

Section Offsets.
Implicit Types specs : list p_opt.

Lemma sum_list_app (l k : list nat) :
  sum_list (l ++ k) = (sum_list l + sum_list k)%nat.
Proof. induction l as [|x l IH]; simpl; [done|]. rewrite IH. lia. Qed.

Lemma offset_0 specs : offset specs 0 = 0%nat.
Proof. reflexivity. Qed.

Lemma offset_S specs (k : nat) (c : p_opt) :
  specs !! k = Some c -> offset specs (S k) = (offset specs k + guess_len c)%nat.
Proof.
  intros Hk. unfold offset. rewrite (take_S_r _ _ _ Hk), fmap_app, sum_list_app.
  simpl. lia.
Qed.

Lemma offset_cons (c : p_opt) specs (k : nat) :
  offset (c :: specs) (S k) = (guess_len c + offset specs k)%nat.
Proof. reflexivity. Qed.

Lemma offset_mono specs (j k : nat) : (j <= k)%nat -> (offset specs j <= offset specs k)%nat.
Proof.
  intros Hjk. unfold offset.
  replace k with (j + (k - j))%nat by lia.
  rewrite <- (take_drop j (take (j + (k - j)) specs)).
  rewrite take_take, fmap_app, sum_list_app.
  replace (j `min` (j + (k - j)))%nat with j by lia. lia.
Qed.

(** The slices of two different controls do not meet. *)
Lemma in_slice_disjoint specs (j k i : nat) :
  j <> k -> in_slice specs j i -> in_slice specs k i -> False.
Proof.
  unfold in_slice. intros Hjk Hj Hk.
  destruct (specs !! j) as [cj|] eqn:Ej; [|done].
  destruct (specs !! k) as [ck|] eqn:Ek; [|done].
  destruct (decide (j < k)%nat).
  - pose proof (offset_S specs j cj Ej). pose proof (offset_mono specs (S j) k). lia.
  - pose proof (offset_S specs k ck Ek). pose proof (offset_mono specs (S k) j). lia.
Qed.
End Offsets.

Section Routing.
Context {B : Backend} {Qt : Qutip}.
Local Open Scope nat_scope.

Lemma helper_call (control : coeff) (lower upper : nat) (t : scalar) (p : list scalar) :
  JOPT.helper control lower upper t p = control t (slice p lower upper).
Proof. reflexivity. Qed.

(** The loop keeps what [H] holds, appends one element per pair in
    order, and binds the pair at position [k] to the bounds
    [idx + offset k] and [idx + offset k + M_k]. *)
Lemma prepare_loop_spec (guess_params : list scalar)
    (pairs : list ((Qobj * coeff) * p_opt)) :
  forall (H0 : QobjEvo) (idx : nat),
    Forall (fun pr => is_Some (guess pr.2)) pairs ->
    exists H', JOPT.prepare_loop guess_params H0 idx pairs = Ok H' /\
      constants H' = constants H0 /\
      length (elements H') = length (elements H0) + length pairs /\
      (forall i e, elements H0 !! i = Some e -> elements H' !! i = Some e) /\
      (forall k hc ctrl c, pairs !! k = Some ((hc, ctrl), c) ->
         elements H' !! (length (elements H0) + k)
         = Some (hc, JOPT.helper ctrl (idx + offset (pairs.*2) k)
                       (idx + offset (pairs.*2) k + guess_len c))).
Proof.
  induction pairs as [|[[hc0 ctrl0] c0] rest IH]; intros H0 idx Hg.
  - exists H0. repeat split; [simpl; lia | done | intros ? ? ? ? [=]].
  - apply Forall_cons in Hg as [[g Hg0] Hrest]. simpl in Hg0.
    simpl JOPT.prepare_loop. rewrite Hg0.
    set (e0 := (hc0, JOPT.helper ctrl0 idx (idx + length g))).
    set (H1 := QobjEvo_add H0 _).
    assert (Hel : elements H1 = elements H0 ++ [e0]) by reflexivity.
    destruct (IH H1 (idx + length g) Hrest) as (H' & -> & Hc & Hlen & Hkeep & Hnew).
    exists H'. split; [reflexivity|].
    split; [rewrite Hc; simpl; apply app_nil_r|].
    split; [rewrite Hlen, Hel, length_app; simpl; lia|].
    split.
    + intros i e Hi. apply Hkeep. rewrite Hel. by apply lookup_app_l_Some.
    + intros [|k] hc ctrl c Hk.
      * simpl in Hk. injection Hk as <- <- <-.
        rewrite Nat.add_0_r. rewrite (Hkeep (length (elements H0)) e0).
        -- unfold e0, guess_len. rewrite Hg0, offset_0, Nat.add_0_r. reflexivity.
        -- rewrite Hel. apply list_lookup_middle. reflexivity.
      * simpl in Hk. specialize (Hnew k hc ctrl c Hk).
        rewrite Hel, length_app in Hnew. simpl in Hnew.
        replace (length (elements H0) + S k) with (length (elements H0) + 1 + k) by lia.
        rewrite Hnew. rewrite fmap_cons, offset_cons. simpl.
        replace (guess_len c0) with (length g) by (unfold guess_len; by rewrite Hg0).
        do 3 f_equal; lia.
Qed.

(** C4: with as many control terms as entries of the specification,
    each holding a guess, the builder succeeds and the [k]-th control
    element of the generator is the [k]-th operator with a coefficient
    that calls the [k]-th control function on
    [params[offset_k : offset_k + M_k]], [offset_k] being the sum of the
    guess lengths of the controls before it; changing [params] inside the
    slice of another control only leaves that coefficient unchanged. *)
Theorem prepare_generator_routing (Hd : Qobj) (Hc_lst : list (Qobj * coeff))
    (control_parameters : list (string * p_opt)) (guess_params : list scalar) :
  length Hc_lst = length control_parameters ->
  Forall (fun c => is_Some (guess c.2)) control_parameters ->
  exists H,
    JOPT._prepare_generator Hd Hc_lst control_parameters guess_params = Ok H /\
    length (elements H) = length Hc_lst /\
    forall k hc ctrl c,
      Hc_lst !! k = Some (hc, ctrl) -> control_parameters.*2 !! k = Some c ->
      let lower := offset (control_parameters.*2) k in
      let M := guess_len c in
      exists f, elements H !! k = Some (to_jax hc, f) /\
        (forall t params, f t params = ctrl t (slice params lower (lower + M))) /\
        (forall j t params params', j <> k ->
           (forall i, ~ in_slice (control_parameters.*2) j i ->
                      params !! i = params' !! i) ->
           f t params = f t params').
Proof.
  intros Hlen Hguess. unfold JOPT._prepare_generator.
  set (pairs := zip Hc_lst (control_parameters.*2)).
  assert (Hsnd : pairs.*2 = control_parameters.*2).
  { apply snd_zip. rewrite length_fmap. lia. }
  destruct (prepare_loop_spec guess_params pairs (QobjEvo_const Hd) 0)
    as (H' & -> & _ & Hl & _ & Hnew).
  { apply Forall_forall. intros [hcf c] Hin.
    apply (list_elem_of_fmap_2 snd) in Hin. rewrite Hsnd in Hin. simpl in *.
    apply list_elem_of_fmap in Hin as ([name c'] & -> & Hin).
    by apply (proj1 (Forall_forall _ _) Hguess (name, c')). }
  eexists. split; [reflexivity|]. simpl.
  split.
  { rewrite length_fmap, Hl. simpl. unfold pairs.
    rewrite length_zip_with, length_fmap. lia. }
  intros k hc ctrl c Hhc Hc. cbv zeta.
  assert (Hpair : pairs !! k = Some ((hc, ctrl), c)).
  { unfold pairs. apply lookup_zip_with_Some. by exists (hc, ctrl), c. }
  specialize (Hnew k hc ctrl c Hpair). simpl in Hnew. rewrite Hsnd in Hnew.
  eexists. split; [by rewrite list_lookup_fmap, Hnew|].
  simpl. split; [reflexivity|].
  intros j t params params' Hjk Hagree. rewrite !helper_call. f_equal.
  apply slice_ext. intros i Hi. apply Hagree. intros Hj.
  apply (in_slice_disjoint (control_parameters.*2) j k i Hjk Hj).
  unfold in_slice. rewrite Hc. exact Hi.
Qed.
End Routing.

Lemma prepare_generator_routing_witness :
  exists (H : QobjEvo) (f : coeff),
    JOPT._prepare_generator Example2.sigmaz
      [(Example2.sigmax, Example2.ramp); (Example2.sigmay, Example2.ramp)]
      Example2.pulse_options (Example2.ones 6) = Ok H /\
    elements H !! 1%nat = Some (Example2.sigmay, f) /\
    forall t params, f t params = Example2.ramp t (slice params 3 6).
Proof.
  assert (Hlen : length [(Example2.sigmax, Example2.ramp);
                         (Example2.sigmay, Example2.ramp)]
                 = length Example2.pulse_options) by reflexivity.
  assert (Hguess : Forall (fun c : string * p_opt => is_Some (guess c.2))
                     Example2.pulse_options).
  { repeat constructor; simpl; eexists; reflexivity. }
  destruct (prepare_generator_routing Example2.sigmaz _ _ (Example2.ones 6)
              Hlen Hguess) as (H & HH & _ & Hk).
  destruct (Hk 1%nat Example2.sigmay Example2.ramp
              {| guess := Some Example2.p_guess; bounds := Some Example2.p_bounds |}
              eq_refl eq_refl)
    as (f & Hf & Hcall & _).
  exists H, f. split; [exact HH|]. split; [exact Hf|exact Hcall].
Defined.

(** * Construction performs no validation *)

Section Construction.
Context {B : Backend} {Qt : Qutip} {Ig : Integrator}.

(** The loop reads the guess of each entry and nothing else of it. *)
Lemma prepare_loop_guess_only (guess_params : list scalar) (specs : list p_opt) :
  forall (specs' : list p_opt) (Hc : list (Qobj * coeff)) (H0 : QobjEvo) (idx : nat),
    guess <$> specs = guess <$> specs' ->
    JOPT.prepare_loop guess_params H0 idx (zip Hc specs)
    = JOPT.prepare_loop guess_params H0 idx (zip Hc specs').
Proof.
  induction specs as [|c specs IH]; intros [|c' specs'] Hc H0 idx Heq;
    try discriminate.
  - reflexivity.
  - destruct Hc as [|hc Hc]; [reflexivity|].
    injection Heq as Hg Heq. simpl. rewrite <- Hg.
    destruct (guess c); [|reflexivity]. by apply IH.
Qed.

Lemma zip_surplus_l {X Y} (l extra : list X) (k : list Y) :
  length l = length k -> zip (l ++ extra) k = zip l k.
Proof.
  intros Hlen. rewrite <- (app_nil_r k) at 1.
  rewrite zip_with_app by done. rewrite zip_with_nil_r. apply app_nil_r.
Qed.

Lemma zip_surplus_r {X Y} (l : list X) (k extra : list Y) :
  length l = length k -> zip l (k ++ extra) = zip l k.
Proof.
  intros Hlen. rewrite <- (app_nil_r l) at 1.
  rewrite zip_with_app by done. apply app_nil_r.
Qed.

(** C8, as amended: a control-term count that differs from the number
    of specification entries, or bounds that disagree with the guess, raise
    nothing at construction. Terms and entries are paired in order up to
    the shorter sequence: surplus control terms and surplus entries do not
    change the outcome of construction nor the generator built, and
    neither do the bounds (or names) of the entries. *)
Theorem init_ignores_surplus (initial target Hd : Qobj)
    (Hc_lst extra_terms : list (Qobj * coeff))
    (control_parameters extra_entries : list (string * p_opt))
    (time_interval : TimeInterval.t) (time_options alg_kwargs : gmap string pyval)
    (guess_params : list scalar) (integrator_kwargs : gmap string pyval) :
  length Hc_lst = length control_parameters ->
  let generator := fun Hc specs =>
    JOPT.H <$>
      (JOPT.__init__
         {| Objective.initial := initial; Objective.H := (Hd, Hc);
            Objective.target := target |}
         time_interval time_options specs alg_kwargs guess_params
         integrator_kwargs).1 in
  generator (Hc_lst ++ extra_terms) control_parameters
    = generator Hc_lst control_parameters /\
  generator Hc_lst (control_parameters ++ extra_entries)
    = generator Hc_lst control_parameters /\
  (forall specs' : list (string * p_opt),
     guess <$> specs'.*2 = guess <$> control_parameters.*2 ->
     generator Hc_lst specs' = generator Hc_lst control_parameters).
Proof.
  intros Hlen generator.
  assert (Hlen' : length Hc_lst = length (control_parameters.*2))
    by (by rewrite length_fmap).
  assert (Hgen : forall Hc specs Hc' specs',
    JOPT._prepare_generator Hd Hc specs guess_params
      = JOPT._prepare_generator Hd Hc' specs' guess_params ->
    generator Hc specs = generator Hc' specs').
  { intros Hc specs Hc' specs' Heq. unfold generator, JOPT.__init__.
    cbn [Objective.H fst snd]. rewrite Heq.
    destruct (JOPT._prepare_generator Hd Hc' specs' guess_params); [|reflexivity].
    destruct (TimeInterval.evo_time time_interval) as [[T|e] ti]; [|done].
    by destruct (solver_init_error _ _ _). }
  split; [|split].
  - apply Hgen. unfold JOPT._prepare_generator.
    by rewrite zip_surplus_l.
  - apply Hgen. unfold JOPT._prepare_generator.
    by rewrite fmap_app, zip_surplus_r.
  - intros specs' Hg. apply Hgen. unfold JOPT._prepare_generator.
    by rewrite (prepare_loop_guess_only guess_params _ _ _ _ _ Hg).
Qed.

(** C7, as amended: construction does not inspect the fidelity kind.
    Whether it succeeds, and how it leaves the time interval, does not
    depend on [alg_kwargs]; a [fid_type] given there, whatever the
    string, is stored as it is. *)
Theorem init_accepts_any_fid_type (objective : Objective.t)
    (time_interval : TimeInterval.t) (time_options : gmap string pyval)
    (control_parameters : list (string * p_opt)) (guess_params : list scalar)
    (integrator_kwargs : gmap string pyval) :
  let build := fun alg_kwargs =>
    JOPT.__init__ objective time_interval time_options control_parameters
      alg_kwargs guess_params integrator_kwargs in
  (forall alg_kwargs alg_kwargs',
     is_Ok (build alg_kwargs).1 = is_Ok (build alg_kwargs').1 /\
     (build alg_kwargs).2 = (build alg_kwargs').2) /\
  (forall alg_kwargs (s : string) self,
     alg_kwargs !! "fid_type" = Some (PyStr s) ->
     (build alg_kwargs).1 = Ok self ->
     JOPT.fid_type self = PyStr s).
Proof.
  intros build. unfold build, JOPT.__init__. split.
  - intros alg alg'.
    destruct (JOPT._prepare_generator _ _ _ _); [|done].
    destruct (TimeInterval.evo_time time_interval) as [[T|e] ti]; [|done].
    by destruct (solver_init_error _ _ _).
  - intros alg s self Hs.
    destruct (JOPT._prepare_generator _ _ _ _); [|done].
    destruct (TimeInterval.evo_time time_interval) as [[T|e] ti]; [|done].
    destruct (solver_init_error _ _ _); [done|].
    simpl. intros [= <-]. simpl. unfold dict_get. rewrite Hs.
    by destruct (issuper _).
Qed.
End Construction.

Lemma init_ignores_surplus_witness :
  let build := fun Hc =>
    JOPT.H <$>
      (JOPT.__init__
         {| Objective.initial := Example2.basis0;
            Objective.H := (Example2.sigmaz, Hc);
            Objective.target := Example2.basis1 |}
         Example2.time_interval ∅ Example2.short_options ∅
         (Example2.ones 3) ∅).1 in
  build ([(Example2.sigmax, Example2.ramp)] ++ [(Example2.sigmay, Example2.ramp)])
  = build [(Example2.sigmax, Example2.ramp)].
Proof.
  exact (proj1 (init_ignores_surplus Example2.basis0 Example2.basis1
                  Example2.sigmaz [(Example2.sigmax, Example2.ramp)]
                  [(Example2.sigmay, Example2.ramp)] Example2.short_options []
                  Example2.time_interval ∅ ∅ (Example2.ones 3) ∅ eq_refl)).
Defined.

(** The claim C8 as stated fails: two control terms against one
    specification entry, whose single pair of bounds does not match its
    three guess values, are accepted; the generator holds one control
    element. *)
Lemma construction_accepts_mismatch :
  let r := (JOPT.__init__ Example2.objective Example2.time_interval ∅
              Example2.short_options ∅ (Example2.ones 3) ∅).1 in
  length (Objective.H Example2.objective).2 = 2%nat /\
  length Example2.short_options = 1%nat /\
  is_Ok r = true /\
  (fun self => length (elements (JOPT.H self))) <$> r = Ok 1%nat.
Proof. repeat split. Qed.

Lemma init_accepts_any_fid_type_witness :
  exists self : JOPT.t,
    Example2.build {[ "fid_type" := PyStr "FOO" ]} = Ok self /\
    JOPT.fid_type self = PyStr "FOO".
Proof.
  eexists. split; [reflexivity|].
  apply (proj2 (init_accepts_any_fid_type Example2.objective
                  Example2.time_interval ∅ Example2.pulse_options
                  (Example2.ones 6) ∅) {[ "fid_type" := PyStr "FOO" ]} "FOO");
    reflexivity.
Defined.

(** The claim C7 as stated fails: with the kind ["FOO"] construction
    succeeds, and it is the later call of [infidelity] that fails, after
    the solve. *)
Lemma unknown_fid_type_accepted :
  exists self : JOPT.t,
    Example2.build {[ "fid_type" := PyStr "FOO" ]} = Ok self /\
    JOPT.fid_type self = PyStr "FOO" /\
    JOPT.infidelity self (Example2.ones 6) = Raise (UnboundLocalError "infid").
Proof. eexists. repeat split. Qed.

(** * Further properties of the time grid *)

Section TimeGridReads.
Import TimeInterval.
Local Open Scope Q_scope.

(** Case analysis on everything a read branches on. *)
Ltac read_step :=
  cbn [_tslots _evo_time _n_tslots fst snd truthy_seq default];
  match goal with
  | E : truthy ?T = _ |- context [truthy ?T] => rewrite E
  | E : linspace ?a ?b ?n = _ |- context [linspace ?a ?b ?n] => rewrite E
  | E : last_item ?l = _ |- context [last_item ?l] => rewrite E
  | |- context [truthy ?T] => destruct (truthy T) eqn:?
  | |- context [linspace ?a ?b ?n] => destruct (linspace a b n) eqn:?
  | |- context [last_item ?l] => destruct (last_item l) eqn:?
  end.
Ltac read_cases self :=
  destruct self as [[[|? ?]|] [?|] [?|]];
  unfold evo_time, tslots, n_tslots;
  repeat read_step;
  cbn [_tslots _evo_time _n_tslots fst snd truthy_seq default].


(** X2: no read replaces an input that was supplied: a field that is
    set keeps its value through [tslots], [evo_time] and [n_tslots]. *)
Theorem property_reads_keep_inputs (self : TimeInterval.t) :
  keeps_inputs self (tslots self).2 /\
  keeps_inputs self (evo_time self).2 /\
  keeps_inputs self (n_tslots self).2.
Proof.
  unfold keeps_inputs. read_cases self;
    repeat split; try reflexivity; intros [? [=]].
Qed.

(** X3: [tslots] and [evo_time] can be read in either order: both
    orders give the same two outcomes and leave the same object. *)
Theorem read_order_irrelevant (self : TimeInterval.t) :
  let a := tslots self in
  let ab := evo_time a.2 in
  let b := evo_time self in
  let ba := tslots b.2 in
  a.1 = ba.1 /\ ab.1 = b.1 /\ ab.2 = ba.2.
Proof.
  cbv zeta. read_cases self; repeat split;
    match goal with E : last_item None = Ok _ |- _ => discriminate E end.
Qed.
End TimeGridReads.

Section TimeGridOutcomes.
Import TimeInterval.
Local Open Scope Q_scope.


(** X4: [evo_time] is the supplied total time when there is one, else
    the last element of the supplied sequence ([IndexError] for an empty
    one); with neither, the read fails: [TypeError] from indexing [None]
    when [n_tslots] is a number (the default included), the [ValueError]
    of [n_tslots] only when [n_tslots] is [None]. *)
Theorem evo_time_outcome (ts : option (list Q)) (T : option Q) (n : option Z) :
  (evo_time (mk ts T n)).1
  = match T, ts, n with
    | Some T, _, _ => Ok T
    | None, Some l, _ =>
        match last l with Some x => Ok x | None => Raise IndexError end
    | None, None, Some _ => Raise TypeError
    | None, None, None =>
        Raise (ValueError
                 "Either tslots or evo_time + n_tslots must be specified.")
    end.
Proof.
  destruct T as [T|]; [reflexivity|].
  destruct ts as [l|].
  - unfold evo_time, tslots, last_item. simpl. by destruct (last l).
  - by destruct n.
Qed.


End TimeGridOutcomes.

(** * Further properties of JOPT *)

Lemma py_eq_str_true (v : pyval) (s : string) :
  py_eq_str v s = true <-> v = PyStr s.
Proof.
  destruct v as [s'| | |]; simpl; try (split; [done|by intros [=]]).
  rewrite String.eqb_eq. split; [by intros -> | by intros [= ->]].
Qed.

Lemma setdefault_lookup (d : gmap string pyval) (k k' : string) (v : pyval) :
  setdefault d k v !! k'
  = if decide (k = k') then Some (default v (d !! k)) else d !! k'.
Proof.
  unfold setdefault. destruct (d !! k) as [w|] eqn:E; case_decide; subst; simpl.
  - done.
  - done.
  - by rewrite lookup_insert_eq.
  - by rewrite lookup_insert_ne.
Qed.

Section Objective_.
Context {B : Backend} {Qt : Qutip} {Ig : Integrator}.

(** When the value bound to [infid] exists. *)
Lemma infid_of_is_Ok (self : JOPT.t) (X : Qobj) :
  is_Ok (JOPT.infid_of self X) = true <->
  (JOPT.fid_type self = PyStr "TRACEDIFF" /\
   exists (D Dd P : Qobj) (tr : complex),
     qsub X (JOPT.target self) = Ok D /\ adjoint_same_dims D = Ok Dd /\
     qmul Dd D = Ok P /\ trace P = Ok tr) \/
  ((JOPT.fid_type self = PyStr "PSU" \/ JOPT.fid_type self = PyStr "SU") /\
   exists g : complex, overlap (JOPT.target self) X = Ok g).
Proof.
  unfold JOPT.infid_of.
  destruct (py_eq_str (JOPT.fid_type self) "TRACEDIFF") eqn:E1.
  - apply py_eq_str_true in E1.
    destruct (qsub X (JOPT.target self)) as [D|e] eqn:HD; simpl;
      [destruct (adjoint_same_dims D) as [Dd|e] eqn:HDd; simpl;
       [destruct (qmul Dd D) as [P|e] eqn:HP; simpl;
        [destruct (trace P) as [tr|e] eqn:Htr; simpl|]|]|].
    all: split;
      [intros Hok; first [discriminate Hok | left; split; [done|]; by eauto 10]
      |intros [(_ & D' & Dd' & P' & tr' & ? & ? & ? & ?)|[[Hk|Hk] _]];
       congruence].
  - assert (HnT : JOPT.fid_type self <> PyStr "TRACEDIFF").
    { intros Hk. apply py_eq_str_true in Hk. congruence. }
    destruct (overlap (JOPT.target self) X) as [g|e] eqn:Hg; simpl.
    + destruct (py_eq_str (JOPT.fid_type self) "PSU") eqn:E2.
      { apply py_eq_str_true in E2. split; [|done]. intros _. right. by eauto. }
      destruct (py_eq_str (JOPT.fid_type self) "SU") eqn:E3.
      { apply py_eq_str_true in E3. split; [|done]. intros _. right. by eauto. }
      split; [done|]. intros [[Hk _]|[[Hk|Hk] _]]; [done| |];
        apply py_eq_str_true in Hk; congruence.
    + split; [done|]. intros [[Hk _]|[_ [g Hg']]]; [done|congruence].
Qed.

(** X14: [_infid] returns a value exactly when the end time resolves,
    the solver returns a final state [X], and the formula of the stored
    kind is defined on [X]: for TRACEDIFF the difference, its adjoint under
    its own dimensions, the product and the trace; for PSU and SU the
    overlap. A failure of the solver is raised as it is, and with a free
    total time an empty parameter vector is an [IndexError]. *)
Theorem infid_outcome (self : JOPT.t) (params : list scalar) :
  (is_Ok (JOPT._infid self params) = true <->
   exists (T : scalar) (X : Qobj),
     JOPT.end_time self params = Ok T /\
     run_final_state (JOPT.solver self) (JOPT.initial self) T params = Ok X /\
     ((JOPT.fid_type self = PyStr "TRACEDIFF" /\
       exists (D Dd P : Qobj) (tr : complex),
         qsub X (JOPT.target self) = Ok D /\ adjoint_same_dims D = Ok Dd /\
         qmul Dd D = Ok P /\ trace P = Ok tr) \/
      ((JOPT.fid_type self = PyStr "PSU" \/ JOPT.fid_type self = PyStr "SU") /\
       exists g : complex, overlap (JOPT.target self) X = Ok g))) /\
  (forall (T : scalar) (e : exn),
     JOPT.end_time self params = Ok T ->
     run_final_state (JOPT.solver self) (JOPT.initial self) T params = Raise e ->
     JOPT._infid self params = Raise e) /\
  (JOPT.var_t self = true -> params = [] ->
   JOPT._infid self params = Raise IndexError).
Proof.
  unfold JOPT._infid. split; [|split].
  - destruct (JOPT.end_time self params) as [T|e]; simpl.
    2: { split; [done | by intros (? & ? & [=] & _)]. }
    destruct (run_final_state _ _ T params) as [X|e] eqn:HX; simpl.
    2: { split; [done|]. intros (T' & X & [= <-] & HX' & _). congruence. }
    rewrite infid_of_is_Ok. split.
    + intros Hok. by exists T, X.
    + intros (T' & X' & [= <-] & HX' & Hok).
      rewrite HX in HX'. by injection HX' as <-.
  - intros T e -> HX. simpl. by rewrite HX.
  - intros Hv ->. unfold JOPT.end_time. by rewrite Hv.
Qed.

(** X7: when [alg_kwargs] has no [fid_type], the kind follows the drift:
    TRACEDIFF with the master-equation solver for a superoperator, PSU
    with the Schroedinger solver otherwise; [_infid] then computes the
    TRACEDIFF value, respectively the PSU value, of every final state on
    which the operations of that formula are defined. *)
Theorem default_fid_type (objective : Objective.t)
    (time_interval : TimeInterval.t) (time_options : gmap string pyval)
    (control_parameters : list (string * p_opt))
    (alg_kwargs : gmap string pyval) (guess_params : list scalar)
    (integrator_kwargs : gmap string pyval)
    (self : JOPT.t) (time_interval' : TimeInterval.t) :
  JOPT.__init__ objective time_interval time_options control_parameters
    alg_kwargs guess_params integrator_kwargs = (Ok self, time_interval') ->
  alg_kwargs !! "fid_type" = None ->
  (JOPT.fid_type self, kind (JOPT.solver self))
  = (if issuper (Objective.H objective).1
     then (PyStr "TRACEDIFF", MESolver) else (PyStr "PSU", SESolver)) /\
  forall (params : list scalar) (T : scalar) (X : Qobj),
    JOPT.end_time self params = Ok T ->
    run_final_state (JOPT.solver self) (JOPT.initial self) T params = Ok X ->
    if issuper (Objective.H objective).1
    then forall (D Dd P : Qobj) (tr : complex),
           qsub X (JOPT.target self) = Ok D -> adjoint_same_dims D = Ok Dd ->
           qmul Dd D = Ok P -> trace P = Ok tr ->
           JOPT._infid self params
           = Ok (jnp.real
                   (jnp.multiply (of_real (JOPT.norm_fac self))
                      (jnp.multiply (of_real (of_Q 1 / of_Q 2)%sc) tr)))
    else forall g : complex,
           overlap (JOPT.target self) X = Ok g ->
           JOPT._infid self params
           = Ok (of_Q 1 - call abs (jnp.multiply (of_real (JOPT.norm_fac self)) g))%sc.
Proof.
  intros Hinit Hnone.
  destruct (init_fields _ _ _ _ _ _ _ _ _ Hinit) as (_ & _ & _ & Hft & Hk & _).
  unfold dict_get in Hft. rewrite Hnone in Hft. simpl in Hft.
  split; [rewrite Hft, Hk; by destruct (issuper _)|].
  intros params T X HT HX. rewrite (infid_run self params T X HT HX).
  destruct (issuper _).
  - intros D Dd P tr. by apply infid_of_TRACEDIFF.
  - intros g. by apply infid_of_PSU.
Qed.
End Objective_.

(** * Further properties of the parameter layout *)

Section Layout.
Implicit Types specs : list p_opt.
Local Open Scope nat_scope.

Lemma total_params_cons (c : p_opt) specs :
  total_params (c :: specs) = guess_len c + total_params specs.
Proof. reflexivity. Qed.

Lemma in_slice_0 (c : p_opt) specs (i : nat) :
  in_slice (c :: specs) 0 i <-> i < guess_len c.
Proof. unfold in_slice. simpl. rewrite offset_0. lia. Qed.

Lemma in_slice_S (c : p_opt) specs (k i : nat) :
  in_slice (c :: specs) (S k) i <->
  guess_len c <= i /\ in_slice specs k (i - guess_len c).
Proof.
  unfold in_slice. simpl. destruct (specs !! k) as [ck|]; [|tauto].
  rewrite offset_cons. lia.
Qed.

Lemma in_slice_below_total specs (k i : nat) :
  in_slice specs k i -> i < total_params specs.
Proof.
  unfold in_slice, total_params. destruct (specs !! k) as [c|] eqn:E; [|done].
  intros Hi. pose proof (offset_S specs k c E) as HS.
  pose proof (offset_mono specs (S k) (length specs)) as Hm.
  apply lookup_lt_Some in E. lia.
Qed.

(** The index ranges tile the front of the flat vector: an index lies
    in the range of some control exactly when it is below the sum of all
    guess lengths, and then in the range of one control only. *)
Lemma slices_tile specs (i : nat) :
  (i < total_params specs <-> exists k, in_slice specs k i) /\
  (forall j k, in_slice specs j i -> in_slice specs k i -> j = k).
Proof.
  split.
  - split; [|intros [k Hk]; by apply (in_slice_below_total specs k)].
    revert i. induction specs as [|c specs IH]; intros i Hi.
    + unfold total_params, offset in Hi. simpl in Hi. lia.
    + rewrite total_params_cons in Hi.
      destruct (decide (i < guess_len c)) as [Hlt|Hge].
      * exists 0. by apply in_slice_0.
      * destruct (IH (i - guess_len c)) as [k Hk]; [lia|].
        exists (S k). apply in_slice_S. split; [lia|exact Hk].
  - intros j k Hj Hk. destruct (decide (j = k)) as [|Hne]; [done|].
    destruct (in_slice_disjoint specs j k i Hne Hj Hk).
Qed.

Lemma slice_drop {A} (p : list A) (g lower upper : nat) :
  slice p (g + lower) (g + upper) = slice (drop g p) lower upper.
Proof.
  unfold slice. rewrite drop_drop. f_equal. lia.
Qed.

(** Cutting a flat vector into the pieces of the controls and joining
    them again gives back its front part, as long as the sum of the guess
    lengths; the [k]-th piece is [params[offset_k : offset_k + M_k]]. *)
Lemma control_slices_concat {A} specs (params : list A) :
  concat (control_slices specs params) = take (total_params specs) params /\
  forall k c, specs !! k = Some c ->
    control_slices specs params !! k
    = Some (slice params (offset specs k) (offset specs k + guess_len c)).
Proof.
  split.
  - revert params. induction specs as [|c specs IH]; intros params.
    + reflexivity.
    + unfold control_slices. rewrite imap_cons. simpl concat.
      rewrite offset_0, total_params_cons.
      rewrite <- take_take_drop, <- IH. f_equal.
      * unfold slice. rewrite drop_0. f_equal. lia.
      * f_equal. unfold control_slices. apply imap_ext. intros k ck _. simpl.
        rewrite offset_cons, <- Nat.add_assoc. apply slice_drop.
  - intros k c Hk. unfold control_slices. rewrite list_lookup_imap, Hk.
    reflexivity.
Qed.

Lemma slice_take {A} (p : list A) (n lower upper : nat) :
  upper <= n -> slice (take n p) lower upper = slice p lower upper.
Proof.
  intros Hn. apply slice_ext. intros i Hi. apply lookup_take_lt. lia.
Qed.

Lemma offset_take specs (m k : nat) :
  k <= m -> offset (take m specs) k = offset specs k.
Proof.
  intros Hk. unfold offset. rewrite take_take. by replace (k `min` m) with k by lia.
Qed.
End Layout.

(** * Further properties of the generator builder and of construction *)

Section Builder.
Context {B : Backend} {Qt : Qutip}.
Local Open Scope nat_scope.

Lemma snd_zip_take {X Y} (l : list X) (k : list Y) :
  (zip l k).*2 = take (length l) k.
Proof.
  revert k. induction l as [|x l IH]; intros [|y k]; simpl; try done.
  by rewrite IH.
Qed.

Lemma fst_zip_take {X Y} (l : list X) (k : list Y) :
  (zip l k).*1 = take (length k) l.
Proof.
  revert k. induction l as [|x l IH]; intros [|y k]; simpl; try done.
  by rewrite IH.
Qed.

(** The loop fails only on an entry without a guess, with [TypeError]. *)
Lemma prepare_loop_outcome (guess_params : list scalar)
    (pairs : list ((Qobj * coeff) * p_opt)) :
  forall (H0 : QobjEvo) (idx : nat),
    (Forall (fun pr => is_Some (guess pr.2)) pairs /\
     exists H', JOPT.prepare_loop guess_params H0 idx pairs = Ok H') \/
    (~ Forall (fun pr => is_Some (guess pr.2)) pairs /\
     JOPT.prepare_loop guess_params H0 idx pairs = Raise TypeError).
Proof.
  induction pairs as [|[hcf c] rest IH]; intros H0 idx.
  - left. split; [constructor | by eexists].
  - simpl. destruct (guess c) as [g|] eqn:Hg.
    + destruct (IH (QobjEvo_add H0
                      (QobjEvo_elem hcf.1
                         (JOPT.helper hcf.2 idx (idx + length g)) guess_params))
                   (idx + length g)) as [[Hall Hok]|[Hno Hraise]].
      * left. split; [|exact Hok]. constructor; [simpl; by rewrite Hg|exact Hall].
      * right. split; [|exact Hraise]. intros Hall. apply Hno.
        by apply Forall_cons in Hall as [_ ?].
    + right. split; [|reflexivity]. intros Hall.
      apply Forall_cons in Hall as [[g' Hg'] _]. simpl in Hg'. congruence.
Qed.

(** What the loop leaves in the generator besides the coefficients. *)
Lemma prepare_loop_shape (guess_params : list scalar)
    (pairs : list ((Qobj * coeff) * p_opt)) :
  forall (H0 H' : QobjEvo) (idx : nat),
    JOPT.prepare_loop guess_params H0 idx pairs = Ok H' ->
    constants H' = constants H0 /\
    (elements H').*1 = (elements H0).*1 ++ pairs.*1.*1 /\
    args_p H' = match pairs with [] => args_p H0 | _ => Some guess_params end.
Proof.
  induction pairs as [|[hcf c] rest IH]; intros H0 H' idx Hrun.
  - injection Hrun as <-. by rewrite app_nil_r.
  - simpl in Hrun. destruct (guess c) as [g|]; [|discriminate].
    apply IH in Hrun as (Hc & He & Ha). simpl in *.
    split; [by rewrite Hc, app_nil_r|].
    split; [by rewrite He, fmap_app, <- app_assoc|].
    rewrite Ha. by destruct rest.
Qed.

(** X10: a generator that is built holds the drift as its only constant
    operator and, in order, the operators of the first
    [min(len(Hc_lst), len(control_parameters))] control terms; the guess
    vector is its default argument unless it has no control element.
    Without control terms, or without specification entries, the builder
    returns the drift alone. *)
Theorem prepare_generator_shape (Hd : Qobj) (Hc_lst : list (Qobj * coeff))
    (control_parameters : list (string * p_opt)) (guess_params : list scalar) :
  (forall H,
     JOPT._prepare_generator Hd Hc_lst control_parameters guess_params = Ok H ->
     constants H = [to_jax Hd] /\
     (elements H).*1 = to_jax <$> (take (length control_parameters) Hc_lst).*1 /\
     length (elements H) = length Hc_lst `min` length control_parameters /\
     args_p H = match elements H with [] => None | _ => Some guess_params end) /\
  JOPT._prepare_generator Hd [] control_parameters guess_params
  = Ok {| constants := [to_jax Hd]; elements := []; args_p := None |} /\
  JOPT._prepare_generator Hd Hc_lst [] guess_params
  = Ok {| constants := [to_jax Hd]; elements := []; args_p := None |}.
Proof.
  split; [|split].
  - intros H. unfold JOPT._prepare_generator.
    destruct (JOPT.prepare_loop _ _ _ _) as [H'|e] eqn:Hrun; [|discriminate].
    simpl. intros [= <-]. apply prepare_loop_shape in Hrun as (Hc & He & Ha).
    simpl in *.
    assert (Hfst : (elements H').*1
                   = (take (length control_parameters) Hc_lst).*1).
    { by rewrite He, fst_zip_take, length_fmap. }
    split; [by rewrite Hc|].
    split.
    { rewrite <- Hfst, <- !list_fmap_compose. by apply list_fmap_ext; intros ? []. }
    split.
    { rewrite length_fmap, <- (length_fmap fst (elements H')), Hfst.
      rewrite length_fmap, length_take. lia. }
    rewrite Ha. destruct (elements H') as [|e0 els] eqn:Hel; simpl.
    + destruct (zip Hc_lst control_parameters.*2) as [|pr prs]; [done|].
      simpl in He. discriminate.
    + destruct (zip Hc_lst control_parameters.*2) as [|pr prs]; [|done].
      simpl in He. discriminate.
  - reflexivity.
  - unfold JOPT._prepare_generator. simpl. by rewrite zip_with_nil_r.
Qed.

(** X13: the coefficients of a generator that is built read the flat
    vector below the sum of the guess lengths only: two vectors with the
    same front part give every coefficient the same value, so a trailing
    entry, such as a free total time, reaches no control function. *)
Theorem coefficients_ignore_tail (Hd : Qobj) (Hc_lst : list (Qobj * coeff))
    (control_parameters : list (string * p_opt)) (guess_params : list scalar)
    (H : QobjEvo) :
  JOPT._prepare_generator Hd Hc_lst control_parameters guess_params = Ok H ->
  forall (k : nat) (hc : Qobj) (f : coeff) (t : scalar) (p p' : list scalar),
    elements H !! k = Some (hc, f) ->
    take (total_params (control_parameters.*2)) p
    = take (total_params (control_parameters.*2)) p' ->
    f t p = f t p'.
Proof.
  unfold JOPT._prepare_generator. set (specs := control_parameters.*2).
  set (pairs := zip Hc_lst specs).
  destruct (prepare_loop_outcome guess_params pairs (QobjEvo_const Hd) 0)
    as [[Hall _]|[_ Hraise]]; [|by rewrite Hraise].
  destruct (prepare_loop_spec guess_params pairs (QobjEvo_const Hd) 0 Hall)
    as (H' & -> & _ & Hlen & _ & Hnew).
  simpl. intros [= <-] k hc f t p p' Hk Hp. simpl in *.
  apply list_lookup_fmap_Some in Hk as ([hc0 f0] & [= -> ->] & Hk).
  assert (Hlt : k < length pairs) by (apply lookup_lt_Some in Hk; lia).
  destruct (lookup_lt_is_Some_2 pairs k Hlt) as [[[hc1 ctrl] c] Hpair].
  rewrite (Hnew k hc1 ctrl c Hpair) in Hk. injection Hk as <- <-.
  rewrite !helper_call. f_equal.
  assert (Hsnd : pairs.*2 = take (length Hc_lst) specs) by apply snd_zip_take.
  assert (Hc : specs !! k = Some c).
  { assert (Hc' : pairs.*2 !! k = Some c) by (by rewrite list_lookup_fmap, Hpair).
    rewrite Hsnd in Hc'. by apply lookup_take_Some in Hc' as [? _]. }
  assert (Hkm : k <= length Hc_lst).
  { unfold pairs in Hlt. rewrite length_zip_with in Hlt. lia. }
  rewrite Hsnd, (offset_take specs _ k Hkm).
  assert (Hup : offset specs k + guess_len c <= total_params specs).
  { rewrite <- (offset_S specs k c Hc). apply offset_mono.
    apply lookup_lt_Some in Hc. lia. }
  rewrite <- (slice_take p (total_params specs)) by exact Hup.
  rewrite <- (slice_take p' (total_params specs)) by exact Hup.
  by rewrite Hp.
Qed.

(** X11: with as many control terms as specification entries, each
    holding a guess, the arguments that the coefficients of the built
    generator hand to the control functions partition the front of the
    flat vector: the [k]-th control is called on the [k]-th piece, there
    is one piece per control, and the pieces joined in order are
    [params[:total]], [total] being the sum of the guess lengths. *)
Theorem controls_receive_partition (Hd : Qobj) (Hc_lst : list (Qobj * coeff))
    (control_parameters : list (string * p_opt)) (guess_params : list scalar) :
  length Hc_lst = length control_parameters ->
  Forall (fun c => is_Some (guess c.2)) control_parameters ->
  exists H,
    JOPT._prepare_generator Hd Hc_lst control_parameters guess_params = Ok H /\
    forall params : list scalar,
      let pieces := control_slices (control_parameters.*2) params in
      length pieces = length Hc_lst /\
      concat pieces = take (total_params (control_parameters.*2)) params /\
      forall k hc ctrl, Hc_lst !! k = Some (hc, ctrl) ->
        exists f piece,
          elements H !! k = Some (to_jax hc, f) /\
          pieces !! k = Some piece /\
          forall t, f t params = ctrl t piece.
Proof.
  intros Hlen Hguess. unfold JOPT._prepare_generator.
  set (specs := control_parameters.*2).
  set (pairs := zip Hc_lst specs).
  assert (Hsnd : pairs.*2 = specs).
  { apply snd_zip. unfold specs. rewrite length_fmap. lia. }
  destruct (prepare_loop_spec guess_params pairs (QobjEvo_const Hd) 0)
    as (H' & -> & _ & _ & _ & Hnew).
  { assert (Hall : Forall (fun c => is_Some (guess c)) (pairs.*2)).
    { rewrite Hsnd. unfold specs. by apply Forall_fmap. }
    apply Forall_forall. intros pr Hin.
    apply (proj1 (Forall_forall _ _) Hall). by apply (list_elem_of_fmap_2 snd). }
  eexists. split; [reflexivity|]. intros params. cbv zeta.
  split; [unfold control_slices, specs;
          by rewrite length_imap, length_fmap|].
  split; [apply control_slices_concat|].
  intros k hc ctrl Hhc.
  assert (Hk : k < length specs).
  { unfold specs. rewrite length_fmap, <- Hlen. by apply lookup_lt_Some in Hhc. }
  destruct (lookup_lt_is_Some_2 specs k Hk) as [c Hc].
  assert (Hpair : pairs !! k = Some ((hc, ctrl), c)).
  { unfold pairs. apply lookup_zip_with_Some. by exists (hc, ctrl), c. }
  specialize (Hnew k hc ctrl c Hpair). simpl in Hnew. rewrite Hsnd in Hnew.
  eexists _, _. split; [simpl; by rewrite list_lookup_fmap, Hnew|].
  split; [by apply control_slices_concat|]. reflexivity.
Qed.
End Builder.

Section ConstructionOutcome.
Context {B : Backend} {Qt : Qutip} {Ig : Integrator}.

(** X9: what construction raises first. If one of the specification
    entries that is paired with a control term has no guess, [TypeError],
    and the time interval is not read; otherwise whatever reading
    [time_interval.evo_time] raises. When the read succeeds, the time
    interval is returned as the read left it, whether or not the solver
    is constructed, and an object that is constructed stores the total
    time read. *)
Theorem init_outcome (objective : Objective.t)
    (time_interval : TimeInterval.t) (time_options : gmap string pyval)
    (control_parameters : list (string * p_opt))
    (alg_kwargs : gmap string pyval) (guess_params : list scalar)
    (integrator_kwargs : gmap string pyval) :
  let r := JOPT.__init__ objective time_interval time_options
             control_parameters alg_kwargs guess_params integrator_kwargs in
  let paired := take (length (Objective.H objective).2)
                  (control_parameters.*2) in
  (~ Forall (fun c => is_Some (guess c)) paired ->
   r = (Raise TypeError, time_interval)) /\
  (Forall (fun c => is_Some (guess c)) paired ->
   match TimeInterval.evo_time time_interval with
   | (Raise e, time_interval') => r = (Raise e, time_interval')
   | (Ok T, time_interval') =>
       r.2 = time_interval' /\
       forall self, r.1 = Ok self -> JOPT.evo_time self = T
   end).
Proof.
  intros r paired. unfold r, JOPT.__init__, JOPT._prepare_generator.
  set (pairs := zip (Objective.H objective).2 (control_parameters.*2)).
  assert (Hiff : Forall (fun pr => is_Some (guess pr.2)) pairs
                 <-> Forall (fun c => is_Some (guess c)) paired).
  { unfold paired. rewrite <- snd_zip_take. fold pairs.
    by rewrite Forall_fmap. }
  destruct (prepare_loop_outcome guess_params pairs
              (QobjEvo_const (Objective.H objective).1) 0)
    as [[Hall [H' ->]]|[Hno ->]]; simpl.
  - split; [intros Hn; destruct Hn; by apply Hiff|]. intros _.
    destruct (TimeInterval.evo_time time_interval) as [[T|e] ti]; [|done].
    destruct (solver_init_error _ _ _); simpl; [done|].
    split; [done|]. by intros self [= <-].
  - split; [done|]. intros Hall. destruct Hno. by apply Hiff.
Qed.

(** X8: the last step of construction. The solver constructor receives
    the options that were passed, with [method] set to ["diffrax"], with
    [stepsize_controller] defaulting to [PIDController] of the tolerances
    (those passed as [rtol] and [atol], else [1e-5]) and [solver]
    defaulting to [Dopri5]; every other option passed, [rtol] and [atol]
    included, is handed on unchanged. What the constructor raises on them
    is raised by construction; otherwise the object is constructed with
    the solver holding these options. *)
Theorem solver_constructor_options (objective : Objective.t)
    (time_interval : TimeInterval.t) (time_options : gmap string pyval)
    (control_parameters : list (string * p_opt))
    (alg_kwargs : gmap string pyval) (guess_params : list scalar)
    (integrator_kwargs : gmap string pyval)
    (H : QobjEvo) (T : Q) (time_interval' : TimeInterval.t) :
  JOPT._prepare_generator (Objective.H objective).1 (Objective.H objective).2
    control_parameters guess_params = Ok H ->
  TimeInterval.evo_time time_interval = (Ok T, time_interval') ->
  let r := JOPT.__init__ objective time_interval time_options
             control_parameters alg_kwargs guess_params integrator_kwargs in
  let k := if issuper (Objective.H objective).1 then MESolver else SESolver in
  let tol := fun key => default (PyNum (1 # 100000)) (integrator_kwargs !! key) in
  exists o : gmap string pyval,
    o !! "method" = Some (PyStr "diffrax") /\
    o !! "stepsize_controller"
    = Some (default (PIDController (tol "rtol") (tol "atol"))
              (integrator_kwargs !! "stepsize_controller")) /\
    o !! "solver" = Some (default Dopri5 (integrator_kwargs !! "solver")) /\
    (forall (key : string) (v : pyval),
       key <> "method" -> integrator_kwargs !! key = Some v ->
       o !! key = Some v) /\
    match solver_init_error k H o with
    | Some e => r = (Raise e, time_interval')
    | None =>
        exists self, r = (Ok self, time_interval') /\
          JOPT.solver self = {| kind := k; solver_H := H; options := o |}
    end.
Proof.
  intros Hgen Hevo r k tol. unfold r, JOPT.__init__.
  rewrite Hgen, Hevo. cbn [kind]. fold k.
  match goal with |- context [solver_init_error k H ?o] => exists o end.
  split; [|split; [|split; [|split]]]; last first.
  - destruct (solver_init_error k H _); [reflexivity|]. by eexists.
  - intros key v Hk Hv. rewrite !setdefault_lookup.
    repeat case_decide; subst; rewrite ?setdefault_lookup; simpl;
      rewrite ?lookup_insert_ne by done; by rewrite ?Hv.
  - rewrite !setdefault_lookup. simpl. by rewrite lookup_insert_ne.
  - rewrite !setdefault_lookup. simpl. unfold tol, dict_get.
    by rewrite !lookup_insert_ne.
  - by rewrite !setdefault_lookup, lookup_insert_eq.
Qed.
End ConstructionOutcome.

Lemma init_outcome_witness :
  JOPT.__init__ Example2.objective Example2.time_interval ∅
    [("p", {| guess := None; bounds := None |})] ∅ (Example2.ones 6) ∅
  = (Raise TypeError, Example2.time_interval) /\
  JOPT.__init__ Example2.objective (TimeInterval.__init__ None None Default) ∅
    Example2.pulse_options ∅ (Example2.ones 6) ∅
  = (Raise TypeError, TimeInterval.__init__ None None Default).
Proof.
  split.
  - apply (proj1 (init_outcome Example2.objective Example2.time_interval ∅
                    [("p", {| guess := None; bounds := None |})] ∅
                    (Example2.ones 6) ∅)).
    intros Hall. apply Forall_cons in Hall as [[g Hg] _]. discriminate Hg.
  - apply (proj2 (init_outcome Example2.objective
                    (TimeInterval.__init__ None None Default) ∅
                    Example2.pulse_options ∅ (Example2.ones 6) ∅)).
    repeat constructor; simpl; eexists; reflexivity.
Defined.

Lemma solver_constructor_options_witness :
  (exists o : gmap string pyval,
     o !! "rtol" = Some (PyNum (1 # 1000)) /\
     o !! "method" = Some (PyStr "diffrax")) /\
  (JOPT.__init__ Example2.objective Example2.time_interval ∅
     Example2.pulse_options ∅ (Example2.ones 6)
     {[ "rtol" := PyNum (1 # 1000) ]}).1 = Raise (KeyError "rtol").
Proof.
  split; [|vm_compute; reflexivity].
  edestruct (solver_constructor_options Example2.objective
               Example2.time_interval ∅ Example2.pulse_options ∅
               (Example2.ones 6) {[ "rtol" := PyNum (1 # 1000) ]})
    as (o & Hm & _ & _ & Hpass & _); [reflexivity | reflexivity |].
  exists o. split; [|exact Hm].
  apply Hpass; [discriminate | reflexivity].
Defined.

Lemma infid_outcome_witness :
  exists self : JOPT.t,
    (JOPT.__init__ Example2.objective Example2.time_interval
       {[ "guess" := PyNum 1 ]} Example2.pulse_options ∅
       (Example2.ones 7) ∅).1 = Ok self /\
    JOPT._infid self [] = Raise IndexError /\
    is_Ok (JOPT._infid self (Example2.ones 7)) = true.
Proof.
  eexists. split; [reflexivity|]. split.
  - apply (proj2 (proj2 (infid_outcome _ []))); reflexivity.
  - apply (proj1 (infid_outcome _ (Example2.ones 7))).
    eexists _, _. split; [reflexivity|]. split; [reflexivity|].
    right. split; [by left|]. eexists. reflexivity.
Defined.

Lemma default_fid_type_witness :
  exists self : JOPT.t,
    Example2.build ∅ = Ok self /\
    JOPT.fid_type self = PyStr "PSU" /\
    is_Ok (JOPT._infid self (Example2.ones 6)) = true.
Proof.
  eexists. split; [reflexivity|].
  edestruct (default_fid_type Example2.objective Example2.time_interval ∅
               Example2.pulse_options ∅ (Example2.ones 6) ∅)
    as [Hk Hinf]; [reflexivity | reflexivity |].
  split; [exact (f_equal fst Hk)|].
  exact (f_equal is_Ok (Hinf (Example2.ones 6) _ _ eq_refl eq_refl _ eq_refl)).
Defined.

Lemma coefficients_ignore_tail_witness :
  exists (H : QobjEvo) (f : coeff),
    JOPT._prepare_generator Example2.sigmaz
      [(Example2.sigmax, Example2.ramp); (Example2.sigmay, Example2.ramp)]
      Example2.pulse_options (Example2.ones 6) = Ok H /\
    elements H !! 1%nat = Some (Example2.sigmay, f) /\
    forall t, f t (Example2.ones 6 ++ [5%float])
              = f t (Example2.ones 6 ++ [7%float]).
Proof.
  eexists _, _. split; [reflexivity|]. split; [reflexivity|]. intros t.
  exact (coefficients_ignore_tail Example2.sigmaz
           [(Example2.sigmax, Example2.ramp); (Example2.sigmay, Example2.ramp)]
           Example2.pulse_options (Example2.ones 6) _ eq_refl
           1%nat Example2.sigmay _ t _ _ eq_refl eq_refl).
Defined.

Lemma controls_receive_partition_witness :
  exists (H : QobjEvo) (f : coeff),
    JOPT._prepare_generator Example2.sigmaz
      [(Example2.sigmax, Example2.ramp); (Example2.sigmay, Example2.ramp)]
      Example2.pulse_options (Example2.ones 6) = Ok H /\
    elements H !! 1%nat = Some (Example2.sigmay, f) /\
    forall t, f t [1; 2; 3; 4; 5; 6; 7]%float
              = Example2.ramp t [4; 5; 6]%float.
Proof.
  assert (Hlen : length [(Example2.sigmax, Example2.ramp);
                         (Example2.sigmay, Example2.ramp)]
                 = length Example2.pulse_options) by reflexivity.
  assert (Hguess : Forall (fun c : string * p_opt => is_Some (guess c.2))
                     Example2.pulse_options).
  { repeat constructor; simpl; eexists; reflexivity. }
  destruct (controls_receive_partition Example2.sigmaz _ _ (Example2.ones 6)
              Hlen Hguess) as (H & HH & Hp).
  destruct (Hp [1; 2; 3; 4; 5; 6; 7]%float) as (_ & _ & Hk).
  destruct (Hk 1%nat Example2.sigmay Example2.ramp eq_refl)
    as (f & piece & Hf & Hpiece & Hcall).
  exists H, f. split; [exact HH|]. split; [exact Hf|].
  injection Hpiece as <-. exact Hcall.
Defined.
